(** * The event distribution bridge

    A shallow embedding of [src/modules/collaboration/bridges/PythonEventBridge.py]:
    the event record, the bounded event queue, the batch accumulator, the
    transport call and the bridge facade ([emit_event], [start], [stop],
    [get_stats]), followed by the properties of the bridge that are proved
    about them.

    Conventions of the embedding.
    - Python [int] is [Z]; Python [float] (clock readings, the batch timeout)
      is the kernel's binary64 [float]; [str] is [string]; [Optional[T]] is
      [option T]; a [dataclass] is a [Record]; a [list] is a [list].
    - What the code reads from its environment is an explicit argument: the
      process environment ([os.getenv]), the readings of [time.time()], the
      identifier drawn by [uuid.uuid4()] and the outcome of the HTTP exchange.
    - What the code does to its environment is recorded in the state: every
      call of [session.post] appends the request to the ghost field [wire],
      every [Thread.start()] increments the ghost field [threads_started] and
      every worker thread that ends increments [threads_exited].
    - Each call of [emit_event], [start] and [get_stats], each iteration of
      the worker loop (with the flush it may perform) and the exit of the
      worker loop (with its final flush) is one atomic step; the steps of the
      producer threads, of the caller of [start]/[stop] and of the worker
      thread interleave in any order.
    - A call of [stop] is not atomic: nothing serialises its flush with the
      worker.  The request of the caller goes out, the worker runs while the
      POST is in flight, and only then does the caller count the batch and
      clear it; the worker goes on while the caller waits in [join], and
      [join] returns when the worker has ended or when [timeout] seconds have
      passed, whichever comes first.  A call of [stop] may find the worker in
      the middle of an iteration (it tested the stop signal before it was
      set), which then completes before the worker observes the signal. *)

From Stdlib Require Import ZArith String Ascii List Bool Lia.
From Stdlib Require Import PrimFloat FloatOps SpecFloat.
Import ListNotations.

(* Decimal literals such as 0.1 denote the nearest binary64 value, as in Python. *)
Set Warnings "-inexact-float".

Local Open Scope string_scope.
Local Open Scope list_scope.
Local Open Scope Z_scope.

(** ** Python values used by the bridge *)

(** The JSON values that [asdict] and [json=payload] produce. *)
#[local] Unset Elimination Schemes.
Inductive json : Type :=
| JNull
| JBool (b : bool)
| JInt (z : Z)
| JFloat (f : float)
| JStr (s : string)
| JList (items : list json)
| JObj (fields : list (string * json)).
#[local] Set Elimination Schemes.

(** [int(x)] on a float: truncation toward zero; [None] stands for the
    [ValueError]/[OverflowError] Python raises on NaN and the infinities. *)
Definition py_int (x : float) : option Z :=
  match Prim2SF x with
  | S754_zero _ => Some 0
  | S754_finite s m e =>
      let v := if 0 <=? e then Z.pos m * 2 ^ e else Z.pos m / 2 ^ (- e) in
      Some (if s then - v else v)
  | S754_infinity _ => None
  | S754_nan => None
  end.

(** [len(l)] *)
Definition len {A : Type} (l : list A) : Z := Z.of_nat (length l).

(** [bool(s)] for a string: the empty string is falsy. *)
Definition truthy (s : string) : bool :=
  match s with
  | EmptyString => false
  | String _ _ => true
  end.

(** [a or b] where [a : Optional[str]]: [None] and [''] are falsy. *)
Definition str_or (a : option string) (b : string) : string :=
  match a with
  | Some s => if truthy s then s else b
  | None => b
  end.

(** [os.getenv(key, default)] over a process environment. *)
Definition getenv (environ : string -> option string) (key default : string) : string :=
  match environ key with
  | Some v => v
  | None => default
  end.

(** ** The event record *)

Record CollaborationEvent : Type := mkCollaborationEvent {
  id : string;
  type : string;
  content : string;
  timestamp : Z;
  operation_id : string;
  session_id : option string;
  user_id : option string;
  metadata : option (list (string * json))
}.

Definition json_opt_str (o : option string) : json :=
  match o with
  | Some s => JStr s
  | None => JNull
  end.

Definition json_opt_obj (o : option (list (string * json))) : json :=
  match o with
  | Some kv => JObj kv
  | None => JNull
  end.

(** [dataclasses.asdict(event)]: one key per field, in declaration order. *)
Definition asdict (event : CollaborationEvent) : json :=
  JObj [ ("id", JStr (id event));
         ("type", JStr (type event));
         ("content", JStr (content event));
         ("timestamp", JInt (timestamp event));
         ("operation_id", JStr (operation_id event));
         ("session_id", json_opt_str (session_id event));
         ("user_id", json_opt_str (user_id event));
         ("metadata", json_opt_obj (metadata event)) ].

(** The keys of a JSON object, in order ([[]] for any other value). *)
Definition json_keys (j : json) : list string :=
  match j with
  | JObj kv => map fst kv
  | _ => []
  end.

(** ** The bounded event queue *)

Module EventQueue.

(** [queue.Queue(maxsize)] holds its items in FIFO order; the overflow
    counter sits beside it. *)
Record t : Type := mk {
  queue : list CollaborationEvent;
  maxsize : Z;
  dropped_count : Z
}.

(** [EventQueue.__init__] *)
Definition init (maxsize : Z) : t := mk [] maxsize 0.

(** [queue.Queue.full]: a queue whose [maxsize] is zero or negative is
    unbounded, as the Python library defines it. *)
Definition full (q : t) : bool :=
  (0 <? maxsize q) && (maxsize q <=? len (queue q)).

(** The longest [queue.put(event, block=block, timeout=0.1)] may wait for a
    free slot, in seconds: nothing when [block] is false. *)
Definition put_wait_bound (block : bool) : float :=
  if block then 0.1%float else 0%float.

(** [EventQueue.put]: with no consumer running during the wait, the queue
    is full for the whole window exactly when it is full at the call. *)
Definition put (event : CollaborationEvent) (block : bool) (q : t) : bool * t :=
  if full q
  then (false, mk (queue q) (maxsize q) (dropped_count q + 1))
  else (true, mk (queue q ++ [event]) (maxsize q) (dropped_count q)).

(** [EventQueue.get]: the oldest event, or [None] once the wait ends on an
    empty queue. *)
Definition get (q : t) : option CollaborationEvent * t :=
  match queue q with
  | [] => (None, q)
  | event :: rest => (Some event, mk rest (maxsize q) (dropped_count q))
  end.

(** [EventQueue.size] *)
Definition size (q : t) : Z := len (queue q).

(** [EventQueue.get_dropped_count] *)
Definition get_dropped_count (q : t) : Z := dropped_count q.

End EventQueue.

(** ** The HTTP session *)

(** [str.lower()] on the ASCII letters, as [CaseInsensitiveDict] compares
    header names. *)
Definition lower_ascii (c : ascii) : ascii :=
  let n := N_of_ascii c in
  if ((65 <=? n) && (n <=? 90))%N then ascii_of_N (n + 32) else c.

Fixpoint lower (s : string) : string :=
  match s with
  | EmptyString => EmptyString
  | String c rest => String (lower_ascii c) (lower rest)
  end.

Definition same_header (k k' : string) : bool := String.eqb (lower k) (lower k').

Definition Headers : Type := list (string * string).

(** [headers[key]] *)
Fixpoint header_get (key : string) (hs : Headers) : option string :=
  match hs with
  | [] => None
  | (k, v) :: rest => if same_header key k then Some v else header_get key rest
  end.

(** [headers[key] = value] *)
Fixpoint header_set (key value : string) (hs : Headers) : Headers :=
  match hs with
  | [] => [(key, value)]
  | (k, v) :: rest =>
      if same_header key k then (key, value) :: rest
      else (k, v) :: header_set key value rest
  end.

(** [headers.update(new)] *)
Definition headers_update (new hs : Headers) : Headers :=
  fold_left (fun acc kv => header_set (fst kv) (snd kv) acc) new hs.

Record Retry : Type := mkRetry {
  total : Z;
  backoff_factor : float;
  status_forcelist : list Z;
  allowed_methods : list string
}.

Record HTTPAdapter : Type := mkHTTPAdapter {
  adapter_max_retries : Retry;
  pool_connections : Z;
  pool_maxsize : Z
}.

Record Session : Type := mkSession {
  adapters : list (string * HTTPAdapter);
  headers : Headers
}.

(** One call of [session.post(url, json=payload, timeout=...)], as it leaves
    the bridge. *)
Record Request : Type := mkRequest {
  method : string;
  url : string;
  request_headers : Headers;
  json_body : json;
  timeout : float
}.

(** How one call of [session.post] followed by [raise_for_status] ends, after
    the adapter's own retries: normally, or with the exception class that the
    [except] clauses of [_send_batch] tell apart. *)
Inductive Response : Type :=
| Delivered
| ConnectionError
| Timeout
| HTTPError
| OtherException.

(** What a flush attempt reads from outside: how the HTTP exchange ends and
    the reading of [time.time()] in the [finally] clause. *)
Record Exchange : Type := mkExchange {
  response : Response;
  finished_at : float
}.

(** What one iteration of the worker loop reads from outside: the reading of
    [time.time()] in the flush condition, and the exchange of the flush it
    may perform. *)
Record Tick : Type := mkTick {
  now : float;
  exchange : Exchange
}.

(** What the worker thread does next while another thread is inside [stop]:
    it completes the iteration it is in the middle of, or, at the head of its
    loop, it observes the stop signal, runs its final flush and ends. *)
Inductive WorkerMove : Type :=
| Iterate (tk : Tick)
| Exit (final : Exchange).

(** What one call of [stop] meets: whether the worker is in the middle of an
    iteration when the stop signal is set (it tested the signal before); the
    exchange of the flush the caller performs; what the worker does while the
    POST of the caller is in flight; the reading of the clock when [join]
    starts to wait; and what the worker does from then on, each move with the
    reading of the clock when it is done. *)
Record Shutdown : Type := mkShutdown {
  in_flight : bool;
  caller_exchange : Exchange;
  during_post : list WorkerMove;
  join_started : float;
  during_join : list (float * WorkerMove)
}.

(** What [__init__] reads from outside. *)
Record Runtime : Type := mkRuntime {
  environ : string -> option string;
  clock : float;
  requests_default_headers : Headers
}.

(** A [threading.Thread] as the bridge observes it. *)
Record Thread : Type := mkThread {
  name : string;
  daemon : bool;
  is_alive : bool
}.

(** The [stats] dictionary: its four keys are fixed at construction. *)
Record Stats : Type := mkStats {
  events_sent : Z;
  events_failed : Z;
  batches_sent : Z;
  connection_errors : Z
}.

(** The dictionary [get_stats] returns. *)
Record Snapshot : Type := mkSnapshot {
  snap_stats : Stats;
  queue_size : Z;
  dropped_events : Z;
  snap_enabled : bool
}.

(** ** The bridge *)

Module PythonEventBridge.

Record t : Type := mk {
  api_url : string;
  api_key : string;
  batch_size : Z;
  batch_timeout : float;
  max_retries : Z;
  enabled : bool;
  event_queue : EventQueue.t;
  current_batch : list CollaborationEvent;
  last_batch_time : float;
  worker_thread : option Thread;
  stop_event : bool;
  session : Session;
  stats : Stats;
  (* ghost: the calls of [session.post] so far, oldest first *)
  wire : list Request;
  (* ghost: the number of calls of [Thread.start()] so far *)
  threads_started : nat;
  (* ghost: the number of worker threads that have run to their end *)
  threads_exited : nat;
  (* ghost: the worker tested the stop signal before it was set and is in
     the middle of the iteration that followed *)
  in_iteration : bool
}.

(** Assignments to the attributes that change after construction. *)
Definition set_event_queue (q : EventQueue.t) (b : t) : t :=
  mk (api_url b) (api_key b) (batch_size b) (batch_timeout b) (max_retries b)
     (enabled b) q (current_batch b) (last_batch_time b) (worker_thread b)
     (stop_event b) (session b) (stats b) (wire b) (threads_started b)
     (threads_exited b) (in_iteration b).

Definition set_current_batch (batch : list CollaborationEvent) (b : t) : t :=
  mk (api_url b) (api_key b) (batch_size b) (batch_timeout b) (max_retries b)
     (enabled b) (event_queue b) batch (last_batch_time b) (worker_thread b)
     (stop_event b) (session b) (stats b) (wire b) (threads_started b)
     (threads_exited b) (in_iteration b).

Definition set_last_batch_time (time : float) (b : t) : t :=
  mk (api_url b) (api_key b) (batch_size b) (batch_timeout b) (max_retries b)
     (enabled b) (event_queue b) (current_batch b) time (worker_thread b)
     (stop_event b) (session b) (stats b) (wire b) (threads_started b)
     (threads_exited b) (in_iteration b).

Definition set_worker_thread (th : option Thread) (b : t) : t :=
  mk (api_url b) (api_key b) (batch_size b) (batch_timeout b) (max_retries b)
     (enabled b) (event_queue b) (current_batch b) (last_batch_time b) th
     (stop_event b) (session b) (stats b) (wire b) (threads_started b)
     (threads_exited b) (in_iteration b).

Definition set_stop_event (flag : bool) (b : t) : t :=
  mk (api_url b) (api_key b) (batch_size b) (batch_timeout b) (max_retries b)
     (enabled b) (event_queue b) (current_batch b) (last_batch_time b)
     (worker_thread b) flag (session b) (stats b) (wire b) (threads_started b)
     (threads_exited b) (in_iteration b).

Definition set_stats (st : Stats) (b : t) : t :=
  mk (api_url b) (api_key b) (batch_size b) (batch_timeout b) (max_retries b)
     (enabled b) (event_queue b) (current_batch b) (last_batch_time b)
     (worker_thread b) (stop_event b) (session b) st (wire b) (threads_started b)
     (threads_exited b) (in_iteration b).

Definition set_wire (w : list Request) (b : t) : t :=
  mk (api_url b) (api_key b) (batch_size b) (batch_timeout b) (max_retries b)
     (enabled b) (event_queue b) (current_batch b) (last_batch_time b)
     (worker_thread b) (stop_event b) (session b) (stats b) w (threads_started b)
     (threads_exited b) (in_iteration b).

Definition set_threads_started (n : nat) (b : t) : t :=
  mk (api_url b) (api_key b) (batch_size b) (batch_timeout b) (max_retries b)
     (enabled b) (event_queue b) (current_batch b) (last_batch_time b)
     (worker_thread b) (stop_event b) (session b) (stats b) (wire b) n
     (threads_exited b) (in_iteration b).

Definition set_threads_exited (n : nat) (b : t) : t :=
  mk (api_url b) (api_key b) (batch_size b) (batch_timeout b) (max_retries b)
     (enabled b) (event_queue b) (current_batch b) (last_batch_time b)
     (worker_thread b) (stop_event b) (session b) (stats b) (wire b)
     (threads_started b) n (in_iteration b).

Definition set_in_iteration (flag : bool) (b : t) : t :=
  mk (api_url b) (api_key b) (batch_size b) (batch_timeout b) (max_retries b)
     (enabled b) (event_queue b) (current_batch b) (last_batch_time b)
     (worker_thread b) (stop_event b) (session b) (stats b) (wire b)
     (threads_started b) (threads_exited b) flag.

(** [self.worker_thread is not None and self.worker_thread.is_alive()] *)
Definition worker_alive (b : t) : bool :=
  match worker_thread b with
  | Some th => is_alive th
  | None => false
  end.

(** [_create_session] *)
Definition _create_session (defaults : Headers) (max_retries : Z) (api_key : string)
  : Session :=
  let retry_strategy :=
    mkRetry max_retries 0.5%float [429; 500; 502; 503; 504] ["POST"] in
  let adapter := mkHTTPAdapter retry_strategy 10 20 in
  mkSession
    [("http://", adapter); ("https://", adapter)]
    (headers_update
       [("Content-Type", "application/json");
        ("X-API-Key", api_key);
        ("User-Agent", "PythonEventBridge/1.0")]
       defaults).

(** [session.post(url, json=payload, timeout=5.0)]: the request that goes
    out, carrying the session's headers. *)
Definition post (s : Session) (url : string) (payload : json) (timeout : float)
  : Request :=
  mkRequest "POST" url (headers s) payload timeout.

(** The request [_send_batch] builds for a batch. *)
Definition batch_request (b : t) (events : list CollaborationEvent) : Request :=
  post (session b) (api_url b) (JObj [("events", JList (map asdict events))]) 5.0%float.

(** [_send_batch]: the state afterwards, and [Some r] when the exception of
    outcome [r] is re-raised to the caller. *)
Definition _send_batch (r : Response) (events : list CollaborationEvent) (b : t)
  : t * option Response :=
  match events with
  | [] => (b, None)
  | _ :: _ =>
      let b := set_wire (wire b ++ [batch_request b events]) b in
      match r with
      | Delivered => (b, None)
      | ConnectionError =>
          let st := stats b in
          (set_stats (mkStats (events_sent st) (events_failed st) (batches_sent st)
                              (connection_errors st + 1)) b,
           Some r)
      | Timeout | HTTPError | OtherException => (b, Some r)
      end
  end.

(** [_flush_batch] *)
Definition _flush_batch (x : Exchange) (b : t) : t :=
  match current_batch b with
  | [] => b
  | _ :: _ =>
      let batch := current_batch b in
      let (b, raised) := _send_batch (response x) batch b in
      let st := stats b in
      let b :=
        match raised with
        | None =>
            set_stats (mkStats (events_sent st + len batch) (events_failed st)
                               (batches_sent st + 1) (connection_errors st)) b
        | Some _ =>
            set_stats (mkStats (events_sent st) (events_failed st + len batch)
                               (batches_sent st) (connection_errors st)) b
        end in
      set_last_batch_time (finished_at x) (set_current_batch [] b)
  end.

(** The flush condition of the worker loop:
    [len(current_batch) >= batch_size or time.time() - last_batch_time >= batch_timeout] *)
Definition flush_due (now : float) (b : t) : bool :=
  (batch_size b <=? len (current_batch b))
  || PrimFloat.leb (batch_timeout b) (PrimFloat.sub now (last_batch_time b)).

(** The body of the [while] loop of [_worker_loop]: one iteration. *)
Definition worker_iteration (tk : Tick) (b : t) : t :=
  match EventQueue.get (event_queue b) with
  | (Some event, q) =>
      let b := set_event_queue q b in
      let b := set_current_batch (current_batch b ++ [event]) b in
      if flush_due (now tk) b then _flush_batch (exchange tk) b else b
  | (None, _) => b
  end.

(** The worker thread ends: [is_alive()] is false from then on. *)
Definition thread_exit (b : t) : t :=
  match worker_thread b with
  | Some th =>
      let b := set_worker_thread (Some (mkThread (name th) (daemon th) false)) b in
      if is_alive th then set_threads_exited (S (threads_exited b)) b else b
  | None => b
  end.

(** [_worker_loop], resumed at the head of its [while] loop: one tick per
    iteration until the stop signal is observed, then the final flush with
    the exchange [final].  [None] when the ticks run out while the loop is
    still going. *)
Fixpoint _worker_loop (ticks : list Tick) (final : Exchange) (b : t) : option t :=
  if stop_event b then Some (thread_exit (_flush_batch final b))
  else
    match ticks with
    | [] => None
    | tk :: rest => _worker_loop rest final (worker_iteration tk b)
    end.

(** [start] *)
Definition start (b : t) : t :=
  if worker_alive b then b
  else
    let b := set_stop_event false b in
    let b := set_worker_thread (Some (mkThread "EventBridgeWorker" true true)) b in
    set_threads_started (S (threads_started b)) b.

(** [_flush_batch] on a batch that is not empty, up to the call of
    [session.post]: the request goes out. *)
Definition flush_posts (b : t) : t :=
  set_wire (wire b ++ [batch_request b (current_batch b)]) b.

(** [_flush_batch] from the moment [session.post] has returned or raised:
    the counters are updated with the length [current_batch] has by then,
    and the [finally] clause clears the batch and records the time. *)
Definition flush_returns (x : Exchange) (b : t) : t :=
  let st := stats b in
  let n := len (current_batch b) in
  let st :=
    match response x with
    | Delivered =>
        mkStats (events_sent st + n) (events_failed st) (batches_sent st + 1)
                (connection_errors st)
    | ConnectionError =>
        mkStats (events_sent st) (events_failed st + n) (batches_sent st)
                (connection_errors st + 1)
    | Timeout | HTTPError | OtherException =>
        mkStats (events_sent st) (events_failed st + n) (batches_sent st)
                (connection_errors st)
    end in
  set_last_batch_time (finished_at x) (set_current_batch [] (set_stats st b)).

(** One iteration of the worker thread, if it can take one: it is inside its
    loop, or the stop signal was set after it had tested it. *)
Definition worker_step (tk : Tick) (b : t) : t :=
  if worker_alive b && negb (stop_event b) then worker_iteration tk b
  else if worker_alive b && in_iteration b
       then set_in_iteration false (worker_iteration tk b)
       else b.

(** The worker thread, at the head of its loop, observes the stop signal:
    it runs its final flush and ends. *)
Definition worker_exit (final : Exchange) (b : t) : t :=
  if worker_alive b && negb (in_iteration b)
  then match _worker_loop [] final b with
       | Some b => b
       | None => b
       end
  else b.

Definition worker_move (m : WorkerMove) (b : t) : t :=
  match m with
  | Iterate tk => worker_step tk b
  | Exit final => worker_exit final b
  end.

Definition worker_moves (moves : list WorkerMove) (b : t) : t :=
  fold_left (fun b m => worker_move m b) moves b.

(** [worker_thread.join(timeout)]: the worker goes on until it has ended or
    the clock passes [deadline]. *)
Fixpoint join (deadline : float) (moves : list (float * WorkerMove)) (b : t) : t :=
  match moves with
  | [] => b
  | (finished, m) :: rest =>
      if worker_alive b && PrimFloat.leb finished deadline
      then join deadline rest (worker_move m b)
      else b
  end.

(** [stop]: the caller sets the stop signal and flushes on its own thread,
    the worker running while the POST is in flight; then it waits for the
    worker in [join], for [timeout] seconds at most. *)
Definition stop (sd : Shutdown) (timeout : float) (b : t) : t :=
  if negb (worker_alive b) then b
  else
    let b := set_in_iteration (if stop_event b then in_iteration b else in_flight sd)
                              (set_stop_event true b) in
    let b :=
      match current_batch b with
      | [] => b
      | _ :: _ =>
          flush_returns (caller_exchange sd)
                        (worker_moves (during_post sd) (flush_posts b))
      end in
    join (PrimFloat.add (join_started sd) timeout) (during_join sd) b.

(** [get_stats] *)
Definition get_stats (b : t) : Snapshot :=
  mkSnapshot (stats b) (EventQueue.size (event_queue b))
             (EventQueue.get_dropped_count (event_queue b)) (enabled b).

(** The arguments of [__init__]. *)
Record Args : Type := mkArgs {
  arg_api_url : option string;
  arg_api_key : option string;
  arg_batch_size : Z;
  arg_batch_timeout : float;
  arg_max_retries : Z;
  arg_enabled : bool
}.

(** [__init__] *)
Definition init (rt : Runtime) (a : Args) : t :=
  let api_url :=
    str_or (arg_api_url a)
           (getenv (environ rt) "COLLAB_API_URL" "http://localhost:8081/api/events") in
  let api_key := str_or (arg_api_key a) (getenv (environ rt) "COLLAB_API_KEY" "") in
  let enabled := arg_enabled a && truthy api_key in
  let b :=
    mk api_url api_key (arg_batch_size a) (arg_batch_timeout a) (arg_max_retries a)
       enabled (EventQueue.init 1000) [] (clock rt) None false
       (_create_session (requests_default_headers rt) (arg_max_retries a) api_key)
       (mkStats 0 0 0 0) [] 0%nat 0%nat false in
  if enabled then start b else b.

(** [emit_event]; [uuid4] is the identifier [_generate_event_id] draws and
    [now] the reading of [time.time()].  [None] stands for the exception
    [int()] raises on a clock reading that is not finite. *)
Definition emit_event (uuid4 : string) (now : float)
           (event_type content operation_id : string)
           (session_id user_id : option string)
           (metadata : option (list (string * json))) (b : t) : option (bool * t) :=
  if negb (enabled b) then Some (false, b)
  else
    match py_int (PrimFloat.mul now 1000%float) with
    | None => None
    | Some ms =>
        let event :=
          mkCollaborationEvent uuid4 event_type content ms operation_id
            session_id user_id
            (Some match metadata with Some kv => kv | None => [] end) in
        let (queued, q) := EventQueue.put event false (event_queue b) in
        Some (queued, set_event_queue q b)
    end.

End PythonEventBridge.

(** ** The bridge among its threads *)

(** One step of the system around a bridge: a call of the facade by some
    thread, one iteration of the loop by the worker thread, or the exit of
    the worker from its loop. *)
Inductive Call : Type :=
| CallEmit (uuid4 : string) (now : float) (event_type content operation_id : string)
           (session_id user_id : option string) (metadata : option (list (string * json)))
| CallStart
| CallStop (sd : Shutdown) (timeout : float)
| CallGetStats
| WorkerStep (tk : Tick)
| WorkerExit (final : Exchange).

Import PythonEventBridge.

(** The worker thread is inside its [while] loop. *)
Definition running (b : PythonEventBridge.t) : bool :=
  worker_alive b && negb (stop_event b).

Definition step (c : Call) (b : PythonEventBridge.t) : PythonEventBridge.t :=
  match c with
  | CallEmit uuid4 now event_type content operation_id session_id user_id metadata =>
      match emit_event uuid4 now event_type content operation_id
                       session_id user_id metadata b with
      | Some (_, b') => b'
      | None => b
      end
  | CallStart => start b
  | CallStop sd timeout => stop sd timeout b
  | CallGetStats => b
  | WorkerStep tk => worker_step tk b
  | WorkerExit final => worker_exit final b
  end.

(** A history of steps, oldest first. *)
Definition run (calls : list Call) (b : PythonEventBridge.t) : PythonEventBridge.t :=
  fold_left (fun b c => step c b) calls b.

(** The worker threads of the bridge that are alive. *)
Definition live_threads (b : PythonEventBridge.t) : nat :=
  (threads_started b - threads_exited b)%nat.

(** ** Histories of the queue alone *)

Inductive QueueCall : Type :=
| QPut (event : CollaborationEvent) (block : bool)
| QGet.

Definition queue_step (c : QueueCall) (q : EventQueue.t) : EventQueue.t :=
  match c with
  | QPut event block => snd (EventQueue.put event block q)
  | QGet => snd (EventQueue.get q)
  end.

Definition queue_run (calls : list QueueCall) (q : EventQueue.t) : EventQueue.t :=
  fold_left (fun q c => queue_step c q) calls q.

(** [put] for each event in turn, with no [get] in between. *)
Definition put_all (events : list CollaborationEvent) (q : EventQueue.t) : EventQueue.t :=
  queue_run (map (fun e => QPut e false) events) q.

(** ** Vocabulary of the batching properties *)

(** The worker takes [ticks] iterations in a row. *)
Definition iterate (ticks : list Tick) (b : PythonEventBridge.t) : PythonEventBridge.t :=
  run (map WorkerStep ticks) b.


(** The events of the batches a list of requests carries. *)
Definition request_events (r : Request) : list json :=
  match json_body r with
  | JObj [("events", JList items)] => items
  | _ => []
  end.


(** The configuration a bridge keeps for its lifetime. *)
Definition same_config (b b' : PythonEventBridge.t) : Prop :=
  api_url b' = api_url b /\ api_key b' = api_key b /\
  batch_size b' = batch_size b /\ batch_timeout b' = batch_timeout b /\
  max_retries b' = max_retries b /\ enabled b' = enabled b /\
  session b' = session b.

(** No credential reaches [__init__]: neither the argument nor the
    environment variable holds a non-empty key. *)
Definition no_credential (rt : Runtime) (a : Args) : Prop :=
  (arg_api_key a = None \/ arg_api_key a = Some "") /\
  (environ rt "COLLAB_API_KEY" = None \/ environ rt "COLLAB_API_KEY" = Some "").

(** The field names of an event on the wire. *)
Definition event_fields : list string :=
  ["id"; "type"; "content"; "timestamp"; "operation_id"; "session_id"; "user_id";
   "metadata"].

(** The thread bookkeeping of a bridge is consistent: the live worker threads
    are the one [worker_thread] holds while it is alive. *)
Definition threads_consistent (b : PythonEventBridge.t) : Prop :=
  threads_started b = (threads_exited b + (if worker_alive b then 1 else 0))%nat.

(** The queue of the bridge has the capacity [__init__] gives it and stays
    within it. *)
Definition queue_bounded (b : PythonEventBridge.t) : Prop :=
  EventQueue.maxsize (event_queue b) = 1000
  /\ EventQueue.size (event_queue b) <= 1000.

(** Every request on the wire carries at least one event. *)
Definition batches_nonempty (b : PythonEventBridge.t) : Prop :=
  Forall (fun r => request_events r <> []) (wire b).

(** Nothing has entered or left the bridge. *)
Definition silent (b : PythonEventBridge.t) : Prop :=
  enabled b = false
  /\ EventQueue.queue (event_queue b) = []
  /\ current_batch b = []
  /\ wire b = []
  /\ events_sent (stats b) = 0.

(** The request a batch goes out as, if it holds any event. *)
Definition as_request (b : PythonEventBridge.t) (batch : list CollaborationEvent)
  : list Request :=
  match batch with
  | [] => []
  | _ :: _ => [batch_request b batch]
  end.

(** The statistics after a flush attempt on a batch of [n] events that ended
    with [r]. *)
Definition flushed_stats (r : Response) (n : Z) (st : Stats) : Stats :=
  match r with
  | Delivered =>
      mkStats (events_sent st + n) (events_failed st) (batches_sent st + 1)
              (connection_errors st)
  | ConnectionError =>
      mkStats (events_sent st) (events_failed st + n) (batches_sent st)
              (connection_errors st + 1)
  | Timeout | HTTPError | OtherException =>
      mkStats (events_sent st) (events_failed st + n) (batches_sent st)
              (connection_errors st)
  end.

(** ** Vocabulary of the further properties *)

(** [get] called [n] times in a row: the events it returned, oldest first
    (a call that finds the queue empty returns nothing), and the queue
    afterwards. *)
Fixpoint drain (n : nat) (q : EventQueue.t) : list CollaborationEvent * EventQueue.t :=
  match n with
  | O => ([], q)
  | S n' =>
      match EventQueue.get q with
      | (Some event, q') => let (events, q'') := drain n' q' in (event :: events, q'')
      | (None, q') => drain n' q'
      end
  end.

(** The events that have gone out on the wire, oldest first. *)
Definition wire_events (b : PythonEventBridge.t) : list json :=
  concat (map request_events (wire b)).

(** Every event the bridge has taken and not dropped, oldest first: those
    handed to the transport, those in the current batch, those in the queue. *)
Definition pipeline (b : PythonEventBridge.t) : list json :=
  wire_events b
  ++ map asdict (current_batch b)
  ++ map asdict (EventQueue.queue (event_queue b)).

(** A step that neither takes a new event nor flushes from another thread
    than the worker: any step but [emit_event] and [stop]. *)
Definition transit (c : Call) : bool :=
  match c with
  | CallEmit _ _ _ _ _ _ _ _ => false
  | CallStop _ _ => false
  | _ => true
  end.

(** A step other than [stop]. *)
Definition no_stop (c : Call) : bool :=
  match c with
  | CallStop _ _ => false
  | _ => true
  end.

(** [int(now * 1000)] does not raise. *)
Definition clock_ok (now : float) : bool :=
  match py_int (PrimFloat.mul now 1000%float) with
  | Some _ => true
  | None => false
  end.

(** A call of [emit_event] at a clock reading [int()] accepts. *)
Definition plain_emit (c : Call) : bool :=
  match c with
  | CallEmit _ now _ _ _ _ _ _ => clock_ok now
  | _ => false
  end.

(** The event [emit_event] builds from its arguments. *)
Definition new_event (uuid4 : string) (ms : Z) (event_type content operation_id : string)
           (session_id user_id : option string)
           (metadata : option (list (string * json))) : CollaborationEvent :=
  mkCollaborationEvent uuid4 event_type content ms operation_id session_id user_id
    (Some match metadata with Some kv => kv | None => [] end).

(** The events a step adds to the bridge: the one [emit_event] builds, when
    the bridge is enabled, the clock reading is accepted and the queue has
    room; none otherwise. *)
Definition accepted (c : Call) (b : PythonEventBridge.t) : list CollaborationEvent :=
  match c with
  | CallEmit uuid4 now event_type content operation_id session_id user_id metadata =>
      if enabled b && negb (EventQueue.full (event_queue b))
      then match py_int (PrimFloat.mul now 1000%float) with
           | Some ms => [new_event uuid4 ms event_type content operation_id
                                   session_id user_id metadata]
           | None => []
           end
      else []
  | _ => []
  end.


(** The batch stays below [limit] events and no request on the wire carries
    more than [limit]. *)
Definition batches_within (limit : Z) (b : PythonEventBridge.t) : Prop :=
  len (current_batch b) < limit
  /\ Forall (fun rq => len (request_events rq) <= limit) (wire b).

(** An event on the wire whose metadata is an object. *)
Definition carries_metadata (j : json) : Prop :=
  exists event kv, j = asdict event /\ metadata event = Some kv.

(** ** The process-wide bridge *)

(** The module-level state: the global [_bridge_instance], and (ghost) the
    bridges [stop_bridge] has let go of, oldest first, each as [stop] left
    it. *)
Record Process : Type := mkProcess {
  _bridge_instance : option PythonEventBridge.t;
  released : list PythonEventBridge.t
}.

(** The state when the module has been imported. *)
Definition process_start : Process := mkProcess None [].

(** [os.getenv('COLLAB_ENABLED', '').lower() in ('true', '1', 'yes')]; no
    character outside ASCII lowers to a letter of these three words. *)
Definition collab_enabled (environ : string -> option string) : bool :=
  let v := lower (getenv environ "COLLAB_ENABLED" "") in
  String.eqb v "true" || String.eqb v "1" || String.eqb v "yes".

(** The arguments of the call [PythonEventBridge()]: the defaults. *)
Definition default_args : Args := mkArgs None None 10 0.5%float 3 true.

(** [get_bridge]: what it returns is the global instance afterwards. *)
Definition get_bridge (rt : Runtime) (p : Process) : Process :=
  match _bridge_instance p with
  | Some _ => p
  | None =>
      if collab_enabled (environ rt)
      then mkProcess (Some (init rt default_args)) (released p)
      else p
  end.

(** [emit_collaboration_event]: its result ([None] when [emit_event] raises)
    and the state afterwards; the event goes into the global instance. *)
Definition emit_collaboration_event (rt : Runtime) (uuid4 : string) (now : float)
           (event_type content operation_id : string)
           (session_id user_id : option string)
           (metadata : option (list (string * json))) (p : Process)
  : option bool * Process :=
  let p := get_bridge rt p in
  match _bridge_instance p with
  | Some bridge =>
      match emit_event uuid4 now event_type content operation_id session_id user_id
                       metadata bridge with
      | Some (queued, bridge') => (Some queued, mkProcess (Some bridge') (released p))
      | None => (None, p)
      end
  | None => (Some false, p)
  end.

(** [stop_bridge]: [stop] with its default timeout of 5 s; the global is
    reset whether or not the worker has ended by then. *)
Definition stop_bridge (sd : Shutdown) (p : Process) : Process :=
  match _bridge_instance p with
  | Some bridge => mkProcess None (released p ++ [stop sd 5.0%float bridge])
  | None => p
  end.

(** One step of the process: a call of a module-level function, or
    one iteration of the worker of the global instance. *)
Inductive ProcessCall : Type :=
| PGetBridge (rt : Runtime)
| PEmit (rt : Runtime) (uuid4 : string) (now : float)
        (event_type content operation_id : string)
        (session_id user_id : option string) (metadata : option (list (string * json)))
| PStopBridge (sd : Shutdown)
| PWorkerStep (tk : Tick).

Definition process_step (c : ProcessCall) (p : Process) : Process :=
  match c with
  | PGetBridge rt => get_bridge rt p
  | PEmit rt uuid4 now event_type content operation_id session_id user_id metadata =>
      snd (emit_collaboration_event rt uuid4 now event_type content operation_id
                                    session_id user_id metadata p)
  | PStopBridge sd => stop_bridge sd p
  | PWorkerStep tk =>
      match _bridge_instance p with
      | Some bridge => mkProcess (Some (step (WorkerStep tk) bridge)) (released p)
      | None => p
      end
  end.

Definition process_run (calls : list ProcessCall) (p : Process) : Process :=
  fold_left (fun p c => process_step c p) calls p.

(** The environment a process step reads, if it reads one. *)
Definition step_environ (c : ProcessCall) : option (string -> option string) :=
  match c with
  | PGetBridge rt => Some (environ rt)
  | PEmit rt _ _ _ _ _ _ _ _ => Some (environ rt)
  | _ => None
  end.

(** Collaboration is switched off in every environment the history reads. *)
Definition collab_off (calls : list ProcessCall) : Prop :=
  Forall (fun c => match step_environ c with
                   | Some env => collab_enabled env = false
                   | None => True
                   end) calls.

(** ** Sample scenarios *)

Module Demo.

Definition runtime : Runtime :=
  mkRuntime (fun _ => None) 1000%float
            [("User-Agent", "python-requests/2.31.0"); ("Accept", "*/*");
             ("Connection", "keep-alive")].

(** A bridge with a credential and the given batch size; timeout 0.5 s. *)
Definition args (size : Z) : Args :=
  mkArgs None (Some "secret") size 0.5%float 3 true.

(** A bridge with no credential. *)
Definition args_no_key : Args := mkArgs None None 10 0.5%float 3 true.

Definition event (n : string) : CollaborationEvent :=
  mkCollaborationEvent n "stdout" "line" 1000100 "op-1" None None (Some []).

(** [emit_event("stdout", "line", "op-1")] at time 1000.1 with id [n]. *)
Definition emit (n : string) : Call :=
  CallEmit n 1000.1%float "stdout" "line" "op-1" None None None.

Definition delivered : Exchange := mkExchange Delivered 1000.2%float.
Definition refused : Exchange := mkExchange ConnectionError 1000.2%float.

(** An iteration 0.1 s after construction: the time trigger is silent. *)
Definition early : Tick := mkTick 1000.1%float delivered.

(** A POST that is answered after 0.3 s, and one answered before that. *)
Definition slow : Exchange := mkExchange Delivered 1000.5%float.
Definition prompt : Exchange := mkExchange Delivered 1000.4%float.

(** A call of [stop] that finds the worker at the head of its loop: while
    the request of the caller is in flight the worker observes the signal and
    runs its final flush.  (When the caller has nothing to send, the worker
    ends while the caller waits in [join].) *)
Definition calm : Shutdown :=
  mkShutdown false slow [Exit prompt] 1000.5%float [(1000.6%float, Exit prompt)].

(** A call of [stop] that finds the worker waiting in [get]: while the
    request of the caller is in flight the wait of the worker ends, the
    worker observes the signal and runs its final flush. *)
Definition racing : Shutdown :=
  mkShutdown true slow [Iterate early; Exit prompt] 1000.5%float
             [(1000.6%float, Iterate early); (1000.7%float, Exit prompt)].

(** A call of [stop] that finds the worker waiting in [get], with a request
    that is answered at once; the wait of the worker ends 0.05 s after [join]
    has started. *)
Definition brief : Shutdown :=
  mkShutdown true delivered [] 1000.2%float
             [(1000.25%float, Iterate early); (1000.26%float, Exit prompt)].

(** A second call of [stop], right after the first. *)
Definition again : Shutdown :=
  mkShutdown false delivered [] 1000.21%float
             [(1000.25%float, Iterate early); (1000.26%float, Exit prompt)].

(** An iteration one minute after construction: the timeout has elapsed. *)
Definition late : Tick := mkTick 1060%float (mkExchange Delivered 1060%float).

(** One event emitted and taken into the batch, two more emitted and still
    in the queue; batch size 10. *)
Definition one_batched_two_queued : PythonEventBridge.t :=
  run [emit "e1"; WorkerStep early; emit "e2"; emit "e3"] (init runtime (args 10)).

(** One event emitted and taken into the batch; batch size 10. *)
Definition one_batched : PythonEventBridge.t :=
  run [emit "e1"; WorkerStep early] (init runtime (args 10)).

(** Five events emitted and none taken yet; batch size 2. *)
Definition five_queued : PythonEventBridge.t :=
  run [emit "e1"; emit "e2"; emit "e3"; emit "e4"; emit "e5"]
      (init runtime (args 2)).


(** A queue of capacity 2 that holds two events. *)
Definition full_queue : EventQueue.t :=
  put_all [event "e1"; event "e2"] (EventQueue.init 2).

End Demo.

Module Scenes.

(** An environment that switches collaboration on and holds a key. *)
Definition collab_on (key : string) : option string :=
  if String.eqb key "COLLAB_ENABLED" then Some "True"
  else if String.eqb key "COLLAB_API_KEY" then Some "secret"
  else None.

Definition runtime_on : Runtime :=
  mkRuntime collab_on 1000%float [("User-Agent", "python-requests/2.31.0")].


(** A refused send, a send on the time trigger, a start that finds the
    worker alive, a snapshot and one more iteration. *)
Definition churn : list Call :=
  [WorkerStep (mkTick 1000.1%float Demo.refused); WorkerStep Demo.late;
   CallStart; CallGetStats; WorkerStep Demo.early].

End Scenes.

(** * Properties *)

(** ** Lists and lengths *)

Lemma len_nil {A : Type} : len (@nil A) = 0.
Proof. reflexivity. Qed.

Lemma len_app {A : Type} (l l' : list A) : len (l ++ l') = len l + len l'.
Proof. unfold len. rewrite length_app. lia. Qed.

Lemma len_cons {A : Type} (x : A) (l : list A) : len (x :: l) = 1 + len l.
Proof. unfold len. simpl length. lia. Qed.

Lemma len_nonneg {A : Type} (l : list A) : 0 <= len l.
Proof. unfold len. lia. Qed.


(** ** The queue *)

Lemma queue_run_cons (c : QueueCall) (calls : list QueueCall) (q : EventQueue.t) :
  queue_run (c :: calls) q = queue_run calls (queue_step c q).
Proof. reflexivity. Qed.

Lemma queue_run_app (c1 c2 : list QueueCall) (q : EventQueue.t) :
  queue_run (c1 ++ c2) q = queue_run c2 (queue_run c1 q).
Proof. apply fold_left_app. Qed.

Lemma put_all_app (e1 e2 : list CollaborationEvent) (q : EventQueue.t) :
  put_all (e1 ++ e2) q = put_all e2 (put_all e1 q).
Proof. unfold put_all. rewrite map_app. apply queue_run_app. Qed.

Lemma put_room (event : CollaborationEvent) (block : bool) (q : EventQueue.t) :
  EventQueue.full q = false ->
  EventQueue.put event block q
  = (true, EventQueue.mk (EventQueue.queue q ++ [event]) (EventQueue.maxsize q)
                         (EventQueue.dropped_count q)).
Proof. intros H. unfold EventQueue.put. rewrite H. reflexivity. Qed.

Lemma put_full (event : CollaborationEvent) (block : bool) (q : EventQueue.t) :
  EventQueue.full q = true ->
  EventQueue.put event block q
  = (false, EventQueue.mk (EventQueue.queue q) (EventQueue.maxsize q)
                          (EventQueue.dropped_count q + 1)).
Proof. intros H. unfold EventQueue.put. rewrite H. reflexivity. Qed.

Lemma queue_step_maxsize (c : QueueCall) (q : EventQueue.t) :
  EventQueue.maxsize (queue_step c q) = EventQueue.maxsize q.
Proof.
  destruct c as [event block|]; simpl.
  - unfold EventQueue.put. destruct (EventQueue.full q); reflexivity.
  - unfold EventQueue.get. destruct (EventQueue.queue q); reflexivity.
Qed.

Lemma queue_step_bounded (c : QueueCall) (q : EventQueue.t) :
  0 < EventQueue.maxsize q ->
  EventQueue.size q <= EventQueue.maxsize q ->
  EventQueue.size (queue_step c q) <= EventQueue.maxsize q.
Proof.
  intros Hpos Hle. destruct c as [event block|]; simpl.
  - unfold EventQueue.put.
    destruct (EventQueue.full q) eqn:Hfull; simpl; [ exact Hle | ].
    unfold EventQueue.full in Hfull. unfold EventQueue.size in *. simpl.
    rewrite len_app, len_cons, len_nil.
    apply andb_false_iff in Hfull. destruct Hfull as [H | H]; lia.
  - unfold EventQueue.get, EventQueue.size in *.
    destruct (EventQueue.queue q) as [|e rest] eqn:Hq; simpl.
    + rewrite Hq. exact Hle.
    + rewrite len_cons in Hle. lia.
Qed.

Lemma queue_step_dropped (c : QueueCall) (q : EventQueue.t) :
  EventQueue.dropped_count q <= EventQueue.dropped_count (queue_step c q).
Proof.
  destruct c as [event block|]; simpl.
  - unfold EventQueue.put. destruct (EventQueue.full q); simpl; lia.
  - unfold EventQueue.get. destruct (EventQueue.queue q); simpl; lia.
Qed.

Lemma queue_run_bounded (calls : list QueueCall) (q : EventQueue.t) :
  0 < EventQueue.maxsize q ->
  EventQueue.size q <= EventQueue.maxsize q ->
  EventQueue.size (queue_run calls q) <= EventQueue.maxsize q
  /\ EventQueue.maxsize (queue_run calls q) = EventQueue.maxsize q.
Proof.
  revert q. induction calls as [|c calls IH]; intros q Hpos Hle.
  - split; [ exact Hle | reflexivity ].
  - rewrite queue_run_cons.
    pose proof (queue_step_maxsize c q) as Hm.
    pose proof (queue_step_bounded c q Hpos Hle) as Hb.
    destruct (IH (queue_step c q)) as [H1 H2]; [ lia | lia | ].
    split; lia.
Qed.

Lemma queue_run_dropped (calls : list QueueCall) (q : EventQueue.t) :
  EventQueue.dropped_count q <= EventQueue.dropped_count (queue_run calls q).
Proof.
  revert q. induction calls as [|c calls IH]; intros q; [ simpl; lia | ].
  rewrite queue_run_cons.
  pose proof (queue_step_dropped c q). specialize (IH (queue_step c q)). lia.
Qed.

Lemma put_all_room (events : list CollaborationEvent) (q : EventQueue.t) :
  0 < EventQueue.maxsize q ->
  EventQueue.size q + len events <= EventQueue.maxsize q ->
  put_all events q
  = EventQueue.mk (EventQueue.queue q ++ events) (EventQueue.maxsize q)
                  (EventQueue.dropped_count q).
Proof.
  revert q. induction events as [|e events IH]; intros q Hpos Hle.
  - unfold put_all; simpl. rewrite app_nil_r. destruct q; reflexivity.
  - rewrite len_cons in Hle. pose proof (len_nonneg events).
    assert (Hfull : EventQueue.full q = false).
    { unfold EventQueue.full, EventQueue.size in *. apply andb_false_iff. right. lia. }
    change (put_all (e :: events) q)
      with (put_all events (snd (EventQueue.put e false q))).
    rewrite (put_room e false q Hfull). simpl snd.
    rewrite IH; simpl.
    + rewrite <- app_assoc. reflexivity.
    + exact Hpos.
    + unfold EventQueue.size in *. simpl. rewrite len_app, len_cons, len_nil. lia.
Qed.

Lemma put_all_full (events : list CollaborationEvent) (q : EventQueue.t) :
  0 < EventQueue.maxsize q ->
  EventQueue.size q = EventQueue.maxsize q ->
  put_all events q
  = EventQueue.mk (EventQueue.queue q) (EventQueue.maxsize q)
                  (EventQueue.dropped_count q + len events).
Proof.
  revert q. induction events as [|e events IH]; intros q Hpos Heq.
  - unfold put_all; simpl. rewrite len_nil, Z.add_0_r. destruct q; reflexivity.
  - assert (Hfull : EventQueue.full q = true).
    { unfold EventQueue.full, EventQueue.size in *. apply andb_true_iff. split; lia. }
    change (put_all (e :: events) q)
      with (put_all events (snd (EventQueue.put e false q))).
    rewrite (put_full e false q Hfull). simpl snd.
    rewrite IH; simpl; [ | exact Hpos | exact Heq ].
    rewrite len_cons. f_equal. lia.
Qed.

Lemma put_all_fits (events : list CollaborationEvent) :
  forall q : EventQueue.t,
    EventQueue.maxsize q <= 0
    \/ EventQueue.size q + len events <= EventQueue.maxsize q ->
    put_all events q
    = EventQueue.mk (EventQueue.queue q ++ events) (EventQueue.maxsize q)
                    (EventQueue.dropped_count q).
Proof.
  induction events as [|e events IH]; intros q Hfit.
  - unfold put_all; simpl. rewrite app_nil_r. destruct q; reflexivity.
  - rewrite len_cons in Hfit. pose proof (len_nonneg events).
    assert (Hfull : EventQueue.full q = false).
    { unfold EventQueue.full, EventQueue.size in *. apply andb_false_iff.
      destruct Hfit as [Hu | Hb]; [ left | right ]; lia. }
    change (put_all (e :: events) q)
      with (put_all events (snd (EventQueue.put e false q))).
    rewrite (put_room e false q Hfull). simpl snd.
    rewrite IH; simpl.
    + rewrite <- app_assoc. reflexivity.
    + unfold EventQueue.size, len in *. simpl. rewrite length_app. simpl.
      destruct Hfit as [Hu | Hb]; [ left | right ]; lia.
Qed.

(** ** Histories of the bridge *)

Lemma run_cons (c : Call) (calls : list Call) (b : PythonEventBridge.t) :
  run (c :: calls) b = run calls (step c b).
Proof. reflexivity. Qed.

Lemma run_app (c1 c2 : list Call) (b : PythonEventBridge.t) :
  run (c1 ++ c2) b = run c2 (run c1 b).
Proof. apply fold_left_app. Qed.

(** A property that every step preserves holds along every history. *)
Lemma run_invariant (P : PythonEventBridge.t -> Prop) :
  (forall c b, P b -> P (step c b)) ->
  forall calls b, P b -> P (run calls b).
Proof.
  intros Hstep calls. induction calls as [|c calls IH]; intros b Hb.
  - exact Hb.
  - rewrite run_cons. apply IH, Hstep, Hb.
Qed.

(** ** The flush *)

Lemma flush_empty (x : Exchange) (b : PythonEventBridge.t) :
  current_batch b = [] -> _flush_batch x b = b.
Proof. intros H. unfold _flush_batch. rewrite H. reflexivity. Qed.

(** A flush of a non-empty batch, field by field. *)
Lemma flush_nonempty (x : Exchange) (b : PythonEventBridge.t) :
  current_batch b <> [] ->
  _flush_batch x b
  = mk (api_url b) (api_key b) (batch_size b) (batch_timeout b) (max_retries b)
       (enabled b) (event_queue b) [] (finished_at x) (worker_thread b)
       (stop_event b) (session b)
       (flushed_stats (response x) (len (current_batch b)) (stats b))
       (wire b ++ [batch_request b (current_batch b)])
       (threads_started b) (threads_exited b) (in_iteration b).
Proof.
  intros H. destruct b as [u k bs bt mr en q batch lt th se s st w ts te ii].
  simpl in *. destruct batch as [|e batch]; [ congruence | ].
  unfold _flush_batch, _send_batch, flushed_stats; simpl.
  destruct (response x); reflexivity.
Qed.

Lemma flush_clears (x : Exchange) (b : PythonEventBridge.t) :
  current_batch (_flush_batch x b) = [].
Proof.
  destruct (current_batch b) as [|e l] eqn:H.
  - rewrite flush_empty; assumption.
  - rewrite flush_nonempty; [ reflexivity | congruence ].
Qed.

(** What a flush leaves alone. *)
Lemma flush_frame (x : Exchange) (b : PythonEventBridge.t) :
  same_config b (_flush_batch x b)
  /\ event_queue (_flush_batch x b) = event_queue b
  /\ worker_thread (_flush_batch x b) = worker_thread b
  /\ stop_event (_flush_batch x b) = stop_event b
  /\ threads_started (_flush_batch x b) = threads_started b
  /\ threads_exited (_flush_batch x b) = threads_exited b.
Proof.
  destruct (current_batch b) as [|e l] eqn:H.
  - rewrite flush_empty by assumption. unfold same_config. repeat split.
  - rewrite flush_nonempty by congruence. unfold same_config. repeat split.
Qed.


(** A flush that no other thread interferes with is its two halves, one
    after the other. *)
Lemma flush_split (x : Exchange) (b : PythonEventBridge.t) :
  current_batch b <> [] -> _flush_batch x b = flush_returns x (flush_posts b).
Proof.
  intros H. rewrite flush_nonempty by assumption.
  unfold flush_returns, flush_posts, flushed_stats. simpl.
  destruct (response x); reflexivity.
Qed.

(** The second half of a flush, field by field. *)
Lemma flush_returns_fields (x : Exchange) (b : PythonEventBridge.t) :
  flush_returns x b
  = mk (api_url b) (api_key b) (batch_size b) (batch_timeout b) (max_retries b)
       (enabled b) (event_queue b) [] (finished_at x) (worker_thread b)
       (stop_event b) (session b)
       (flushed_stats (response x) (len (current_batch b)) (stats b))
       (wire b) (threads_started b) (threads_exited b) (in_iteration b).
Proof.
  unfold flush_returns, flushed_stats. simpl. destruct (response x); reflexivity.
Qed.

(** ** The shape of each step *)


Lemma worker_loop_going (tk : Tick) (ticks : list Tick) (final : Exchange)
      (b : PythonEventBridge.t) :
  stop_event b = false ->
  _worker_loop (tk :: ticks) final b = _worker_loop ticks final (worker_iteration tk b).
Proof. intros H. simpl. rewrite H. reflexivity. Qed.

Lemma stop_idle (sd : Shutdown) (timeout : float) (b : PythonEventBridge.t) :
  worker_alive b = false -> stop sd timeout b = b.
Proof. intros H. unfold stop. rewrite H. reflexivity. Qed.

Lemma start_alive (b : PythonEventBridge.t) : worker_alive b = true -> start b = b.
Proof. intros H. unfold start. rewrite H. reflexivity. Qed.

Lemma start_idle (b : PythonEventBridge.t) :
  worker_alive b = false ->
  start b
  = mk (api_url b) (api_key b) (batch_size b) (batch_timeout b) (max_retries b)
       (enabled b) (event_queue b) (current_batch b) (last_batch_time b)
       (Some (mkThread "EventBridgeWorker" true true)) false (session b) (stats b)
       (wire b) (S (threads_started b)) (threads_exited b) (in_iteration b).
Proof. intros H. unfold start. rewrite H. reflexivity. Qed.

Lemma emit_disabled (uuid4 : string) (now : float) (event_type content operation_id : string)
      (session_id user_id : option string) (metadata : option (list (string * json)))
      (b : PythonEventBridge.t) :
  enabled b = false ->
  emit_event uuid4 now event_type content operation_id session_id user_id metadata b
  = Some (false, b).
Proof. intros H. unfold emit_event. rewrite H. reflexivity. Qed.

(** A step of [emit_event] changes the queue at most, by one [put]. *)
Lemma step_emit (uuid4 : string) (now : float) (event_type content operation_id : string)
      (session_id user_id : option string) (metadata : option (list (string * json)))
      (b : PythonEventBridge.t) :
  let c := CallEmit uuid4 now event_type content operation_id session_id user_id metadata in
  step c b = b
  \/ (enabled b = true /\
      exists event, step c b = set_event_queue (queue_step (QPut event false) (event_queue b)) b).
Proof.
  simpl. unfold emit_event. destruct (enabled b) eqn:He; simpl; [ | left; reflexivity ].
  destruct (py_int _) as [ms|]; [ | left; reflexivity ].
  right. split; [ reflexivity | ].
  eexists. destruct (EventQueue.put _ false (event_queue b)) as [queued q] eqn:Hput.
  simpl. rewrite Hput. reflexivity.
Qed.

(** An iteration of the worker either finds the queue empty, or takes its
    oldest event into the batch and then flushes or not. *)
Lemma iteration_idle (tk : Tick) (b : PythonEventBridge.t) :
  EventQueue.queue (event_queue b) = [] -> worker_iteration tk b = b.
Proof. intros H. unfold worker_iteration, EventQueue.get. rewrite H. reflexivity. Qed.

Lemma iteration_take (tk : Tick) (b : PythonEventBridge.t) (event : CollaborationEvent)
      (rest : list CollaborationEvent) :
  EventQueue.queue (event_queue b) = event :: rest ->
  let taken :=
    set_current_batch (current_batch b ++ [event])
      (set_event_queue (queue_step QGet (event_queue b)) b) in
  worker_iteration tk b
  = if flush_due (now tk) taken then _flush_batch (exchange tk) taken else taken.
Proof.
  intros H. unfold worker_iteration. simpl. unfold EventQueue.get. rewrite H. reflexivity.
Qed.

Lemma thread_exit_frame (b : PythonEventBridge.t) :
  same_config b (thread_exit b)
  /\ event_queue (thread_exit b) = event_queue b
  /\ current_batch (thread_exit b) = current_batch b
  /\ last_batch_time (thread_exit b) = last_batch_time b
  /\ stop_event (thread_exit b) = stop_event b
  /\ stats (thread_exit b) = stats b
  /\ wire (thread_exit b) = wire b
  /\ worker_alive (thread_exit b) = false
  /\ threads_started (thread_exit b) = threads_started b
  /\ threads_exited (thread_exit b)
     = (threads_exited b + (if worker_alive b then 1 else 0))%nat.
Proof.
  unfold thread_exit, worker_alive, same_config.
  destruct (worker_thread b) as [th|] eqn:Hth.
  - destruct (is_alive th) eqn:Ha; simpl; rewrite ?Hth; simpl;
      repeat split; lia.
  - rewrite Hth. repeat split; lia.
Qed.

Lemma iteration_frame (tk : Tick) (b : PythonEventBridge.t) :
  same_config b (worker_iteration tk b)
  /\ event_queue (worker_iteration tk b) = queue_step QGet (event_queue b)
  /\ worker_thread (worker_iteration tk b) = worker_thread b
  /\ stop_event (worker_iteration tk b) = stop_event b
  /\ threads_started (worker_iteration tk b) = threads_started b
  /\ threads_exited (worker_iteration tk b) = threads_exited b.
Proof.
  destruct (EventQueue.queue (event_queue b)) as [|event rest] eqn:Hq.
  - rewrite iteration_idle by assumption. unfold same_config.
    simpl. unfold EventQueue.get. rewrite Hq. repeat split.
  - rewrite (iteration_take tk b event rest Hq).
    match goal with |- context [if ?c then _ else _] => destruct c end.
    + match goal with |- context [_flush_batch ?x ?s] =>
        destruct (flush_frame x s) as (Hc & Hq' & Ht & Hs & Hn & Hm) end.
      rewrite Hq', Ht, Hs, Hn, Hm. unfold same_config in *. simpl in *.
      repeat split; tauto.
    + unfold same_config. simpl. repeat split.
Qed.

Lemma same_config_refl (b : PythonEventBridge.t) : same_config b b.
Proof. unfold same_config. repeat split. Qed.

Lemma same_config_trans (b1 b2 b3 : PythonEventBridge.t) :
  same_config b1 b2 -> same_config b2 b3 -> same_config b1 b3.
Proof.
  unfold same_config. intros (A1 & A2 & A3 & A4 & A5 & A6 & A7)
                             (B1 & B2 & B3 & B4 & B5 & B6 & B7).
  repeat split; congruence.
Qed.

(** The worker's exit from its loop, when it can take place. *)
Lemma worker_exit_shape (final : Exchange) (b : PythonEventBridge.t) :
  worker_exit final b
  = if worker_alive b && negb (in_iteration b) && stop_event b
    then thread_exit (_flush_batch final b)
    else b.
Proof.
  unfold worker_exit. simpl.
  destruct (worker_alive b && negb (in_iteration b)), (stop_event b); reflexivity.
Qed.

Lemma worker_moves_cons (m : WorkerMove) (moves : list WorkerMove)
      (b : PythonEventBridge.t) :
  worker_moves (m :: moves) b = worker_moves moves (worker_move m b).
Proof. reflexivity. Qed.

(** [stop] on a bridge whose worker is alive, step by step. *)
Lemma stop_alive (sd : Shutdown) (timeout : float) (b : PythonEventBridge.t) :
  worker_alive b = true ->
  let signalled :=
    set_in_iteration (if stop_event b then in_iteration b else in_flight sd)
                     (set_stop_event true b) in
  stop sd timeout b
  = join (PrimFloat.add (join_started sd) timeout) (during_join sd)
         (if match current_batch b with [] => true | _ :: _ => false end
          then signalled
          else flush_returns (caller_exchange sd)
                 (worker_moves (during_post sd) (flush_posts signalled))).
Proof.
  intros H. unfold stop. rewrite H. simpl. destruct (current_batch b); reflexivity.
Qed.

(** ** Properties every step preserves *)

(** A property of the bridge that the two halves of a flush, an iteration of
    the worker and the end of the worker thread preserve is preserved by
    whatever the worker does during a call of [stop], by [join], and, if the
    calls of the facade preserve it too, by every step and every history. *)
Section Preserved.

Variable P : PythonEventBridge.t -> Prop.

Hypothesis P_ghost : forall flag b, P b -> P (set_in_iteration flag b).
Hypothesis P_posts : forall b, current_batch b <> [] -> P b -> P (flush_posts b).
Hypothesis P_returns : forall x b, P b -> P (flush_returns x b).
Hypothesis P_iteration : forall tk b, P b -> P (worker_iteration tk b).
Hypothesis P_exit : forall b, P b -> P (thread_exit b).

Lemma preserved_flush (x : Exchange) (b : PythonEventBridge.t) :
  P b -> P (_flush_batch x b).
Proof.
  intros H. destruct (current_batch b) as [|e l] eqn:Hb.
  - rewrite flush_empty; assumption.
  - rewrite flush_split by congruence. apply P_returns, P_posts; [ congruence | exact H ].
Qed.

Lemma preserved_worker_step (tk : Tick) (b : PythonEventBridge.t) :
  P b -> P (worker_step tk b).
Proof.
  intros H. unfold worker_step.
  destruct (worker_alive b && negb (stop_event b)); [ apply P_iteration, H | ].
  destruct (worker_alive b && in_iteration b); [ | exact H ].
  apply P_ghost, P_iteration, H.
Qed.

Lemma preserved_worker_exit (final : Exchange) (b : PythonEventBridge.t) :
  P b -> P (worker_exit final b).
Proof.
  intros H. rewrite worker_exit_shape.
  destruct (worker_alive b && negb (in_iteration b) && stop_event b); [ | exact H ].
  apply P_exit, preserved_flush, H.
Qed.

Lemma preserved_move (m : WorkerMove) (b : PythonEventBridge.t) :
  P b -> P (worker_move m b).
Proof.
  destruct m; simpl; [ apply preserved_worker_step | apply preserved_worker_exit ].
Qed.

Lemma preserved_moves (moves : list WorkerMove) :
  forall b, P b -> P (worker_moves moves b).
Proof.
  induction moves as [|m moves IH]; intros b H; [ exact H | ].
  rewrite worker_moves_cons. apply IH, preserved_move, H.
Qed.

Lemma preserved_join (deadline : float) (moves : list (float * WorkerMove)) :
  forall b, P b -> P (join deadline moves b).
Proof.
  induction moves as [|[finished m] moves IH]; intros b H; simpl; [ exact H | ].
  destruct (worker_alive b && PrimFloat.leb finished deadline); [ | exact H ].
  apply IH, preserved_move, H.
Qed.

(** [stop] from the moment the stop signal is set. *)
Lemma preserved_stopping (sd : Shutdown) (timeout : float) (b : PythonEventBridge.t) :
  worker_alive b = true ->
  P (set_in_iteration (if stop_event b then in_iteration b else in_flight sd)
                      (set_stop_event true b)) ->
  P (stop sd timeout b).
Proof.
  intros Ha H. rewrite (stop_alive sd timeout b Ha). cbv zeta.
  apply preserved_join.
  destruct (current_batch b) as [|e l] eqn:Hb; [ exact H | ].
  apply P_returns, preserved_moves, P_posts; [ | exact H ].
  simpl. rewrite Hb. discriminate.
Qed.

Hypothesis P_emit :
  forall uuid4 now event_type content operation_id session_id user_id metadata b,
    P b ->
    P (step (CallEmit uuid4 now event_type content operation_id session_id user_id
                      metadata) b).
Hypothesis P_start : forall b, P b -> P (start b).
Hypothesis P_signal : forall b, P b -> P (set_stop_event true b).

Lemma preserved_stop (sd : Shutdown) (timeout : float) (b : PythonEventBridge.t) :
  P b -> P (stop sd timeout b).
Proof.
  intros H. destruct (worker_alive b) eqn:Ha.
  - apply preserved_stopping; [ exact Ha | ]. apply P_ghost, P_signal, H.
  - rewrite stop_idle; assumption.
Qed.

Lemma preserved_step (c : Call) (b : PythonEventBridge.t) : P b -> P (step c b).
Proof.
  intros H. destruct c as [u n ty co op se us me| |sd timeout| |tk|final].
  - apply P_emit, H.
  - apply P_start, H.
  - apply preserved_stop, H.
  - exact H.
  - apply preserved_worker_step, H.
  - apply preserved_worker_exit, H.
Qed.

Lemma preserved_run (calls : list Call) (b : PythonEventBridge.t) :
  P b -> P (run calls b).
Proof. apply run_invariant. intros c b'. apply preserved_step. Qed.

End Preserved.

(** Once the stop signal is set, nothing in [stop] clears it. *)
Lemma stop_signals (sd : Shutdown) (timeout : float) (b : PythonEventBridge.t) :
  worker_alive b = true -> stop_event (stop sd timeout b) = true.
Proof.
  intros Ha.
  apply (preserved_stopping (fun b => stop_event b = true)); try assumption.
  - intros flag b0 H. exact H.
  - intros b0 _ H. exact H.
  - intros x b0 H. rewrite flush_returns_fields. exact H.
  - intros tk b0 H. destruct (iteration_frame tk b0) as (_ & _ & _ & Hs & _).
    rewrite Hs. exact H.
  - intros b0 H. destruct (thread_exit_frame b0) as (_ & _ & _ & _ & Hs & _).
    rewrite Hs. exact H.
  - reflexivity.
Qed.

(** [stop] returns with the worker alive only if it was called on a bridge
    whose worker was alive; the stop signal is set then. *)
Lemma stop_timed_out (sd : Shutdown) (timeout : float) (b : PythonEventBridge.t) :
  worker_alive (stop sd timeout b) = true ->
  worker_alive b = true /\ stop_event (stop sd timeout b) = true.
Proof.
  intros Halive.
  assert (Hb : worker_alive b = true).
  { destruct (worker_alive b) eqn:E; [ reflexivity | ].
    rewrite (stop_idle sd timeout b E) in Halive. congruence. }
  split; [ exact Hb | apply stop_signals, Hb ].
Qed.

(** ** Invariants of the histories *)

(** A step of [emit_event] leaves the bridge as it is or puts one event in
    the queue: the two cases of [step_emit], for a goal about that step. *)
Ltac emit_cases u n ty co op se us me b0 :=
  let E := fresh "E" in
  let e := fresh "e" in
  destruct (step_emit u n ty co op se us me b0) as [E | (_ & e & E)]; rewrite E.

(** [start] finds the worker alive or not: the two cases. *)
Ltac start_cases b0 :=
  let Ha := fresh "Ha" in
  destruct (worker_alive b0) eqn:Ha;
  [ rewrite (start_alive b0 Ha) | rewrite (start_idle b0 Ha) ].

(** The configuration. *)
Lemma step_config_from (b0 : PythonEventBridge.t) (c : Call) (b : PythonEventBridge.t) :
  same_config b0 b -> same_config b0 (step c b).
Proof.
  apply (preserved_step (same_config b0)); clear c b.
  - intros flag b H. eapply same_config_trans; [ exact H | ].
    unfold same_config. repeat split.
  - intros b _ H. eapply same_config_trans; [ exact H | ].
    unfold same_config. repeat split.
  - intros x b H. eapply same_config_trans; [ exact H | ].
    rewrite flush_returns_fields. unfold same_config. repeat split.
  - intros tk b H. eapply same_config_trans; [ exact H | apply iteration_frame ].
  - intros b H. eapply same_config_trans; [ exact H | apply thread_exit_frame ].
  - intros u n ty co op se us me b H. eapply same_config_trans; [ exact H | ].
    emit_cases u n ty co op se us me b; unfold same_config; repeat split.
  - intros b H. eapply same_config_trans; [ exact H | ].
    start_cases b; unfold same_config; repeat split.
  - intros b H. eapply same_config_trans; [ exact H | ].
    unfold same_config. repeat split.
Qed.

Lemma step_config (c : Call) (b : PythonEventBridge.t) : same_config b (step c b).
Proof. apply step_config_from, same_config_refl. Qed.

Lemma run_config (calls : list Call) (b : PythonEventBridge.t) :
  same_config b (run calls b).
Proof.
  revert b. induction calls as [|c calls IH]; intros b.
  - apply same_config_refl.
  - rewrite run_cons. eapply same_config_trans; [ apply step_config | apply IH ].
Qed.

(** The threads. *)
Lemma step_threads (c : Call) (b : PythonEventBridge.t) :
  threads_consistent b -> threads_consistent (step c b).
Proof.
  apply (preserved_step threads_consistent); clear c b; unfold threads_consistent.
  - intros flag b H. exact H.
  - intros b _ H. exact H.
  - intros x b H. rewrite flush_returns_fields. exact H.
  - intros tk b H. destruct (iteration_frame tk b) as (_ & _ & Ht & _ & Hst & Hex).
    unfold worker_alive in *. rewrite Ht, Hst, Hex. exact H.
  - intros b H.
    destruct (thread_exit_frame b) as (_ & _ & _ & _ & _ & _ & _ & Hal & Hst & Hex).
    rewrite Hal, Hst, Hex. lia.
  - intros u n ty co op se us me b H. emit_cases u n ty co op se us me b; exact H.
  - intros b H. destruct (worker_alive b) eqn:Ha.
    + rewrite start_alive by assumption. rewrite Ha. exact H.
    + rewrite start_idle by assumption. unfold worker_alive. simpl. lia.
  - intros b H. exact H.
Qed.

(** The queue. *)
Lemma step_queue_bounded (c : Call) (b : PythonEventBridge.t) :
  queue_bounded b -> queue_bounded (step c b).
Proof.
  apply (preserved_step queue_bounded); clear c b; unfold queue_bounded.
  - intros flag b H. exact H.
  - intros b _ H. exact H.
  - intros x b H. rewrite flush_returns_fields. exact H.
  - intros tk b [Hm Hs]. destruct (iteration_frame tk b) as (_ & Hq & _). rewrite Hq.
    rewrite queue_step_maxsize. split; [ exact Hm | ].
    rewrite <- Hm. apply queue_step_bounded; lia.
  - intros b H. destruct (thread_exit_frame b) as (_ & Hq & _). rewrite Hq. exact H.
  - intros u n ty co op se us me b [Hm Hs].
    emit_cases u n ty co op se us me b; [ split; assumption | ].
    cbn [event_queue set_event_queue]. rewrite queue_step_maxsize.
    split; [ exact Hm | ]. rewrite <- Hm. apply queue_step_bounded; lia.
  - intros b H. start_cases b; exact H.
  - intros b H. exact H.
Qed.

Lemma request_events_batch (b : PythonEventBridge.t) (events : list CollaborationEvent) :
  request_events (batch_request b events) = map asdict events.
Proof. reflexivity. Qed.

(** The requests. *)
Lemma flush_batches_nonempty (x : Exchange) (b : PythonEventBridge.t) :
  batches_nonempty b -> batches_nonempty (_flush_batch x b).
Proof.
  unfold batches_nonempty. intros Hw.
  destruct (current_batch b) as [|e l] eqn:Hb.
  - rewrite flush_empty by assumption. exact Hw.
  - rewrite flush_nonempty by congruence. simpl wire.
    apply Forall_app. split; [ exact Hw | ].
    constructor; [ | constructor ].
    rewrite request_events_batch, Hb. discriminate.
Qed.

Lemma iteration_batches_nonempty (tk : Tick) (b : PythonEventBridge.t) :
  batches_nonempty b -> batches_nonempty (worker_iteration tk b).
Proof.
  intros H. destruct (EventQueue.queue (event_queue b)) as [|event rest] eqn:Hq.
  - rewrite iteration_idle; assumption.
  - rewrite (iteration_take tk b event rest Hq).
    match goal with |- context [if ?c then _ else _] => destruct c end.
    + apply flush_batches_nonempty. exact H.
    + exact H.
Qed.

Lemma step_batches_nonempty (c : Call) (b : PythonEventBridge.t) :
  batches_nonempty b -> batches_nonempty (step c b).
Proof.
  apply (preserved_step batches_nonempty); clear c b.
  - intros flag b H. exact H.
  - intros b Hne H. unfold batches_nonempty, flush_posts in *. simpl wire.
    apply Forall_app. split; [ exact H | ].
    constructor; [ | constructor ].
    rewrite request_events_batch. destruct (current_batch b); [ congruence | discriminate ].
  - intros x b H. unfold batches_nonempty. rewrite flush_returns_fields. exact H.
  - intros tk b H. apply iteration_batches_nonempty, H.
  - intros b H. unfold batches_nonempty.
    destruct (thread_exit_frame b) as (_ & _ & _ & _ & _ & _ & Hw & _).
    rewrite Hw. exact H.
  - intros u n ty co op se us me b H. emit_cases u n ty co op se us me b; exact H.
  - intros b H. start_cases b; exact H.
  - intros b H. exact H.
Qed.

(** A disabled bridge. *)
Lemma step_silent (c : Call) (b : PythonEventBridge.t) : silent b -> silent (step c b).
Proof.
  apply (preserved_step silent); clear c b; unfold silent.
  - intros flag b H. exact H.
  - intros b Hne H. tauto.
  - intros x b (He & Hq & Hb & Hw & Hs). rewrite flush_returns_fields. simpl.
    rewrite Hb. repeat split; try assumption.
    destruct (response x); simpl; rewrite ?Hs; reflexivity.
  - intros tk b (He & Hq & Hb & Hw & Hs).
    rewrite iteration_idle by assumption. tauto.
  - intros b H.
    destruct (thread_exit_frame b) as ((_ & _ & _ & _ & _ & Hen & _) & Hq & Hb & _ & _
                                       & Hst & Hw & _).
    rewrite Hen, Hq, Hb, Hst, Hw. exact H.
  - intros u n ty co op se us me b (He & Hrest). simpl.
    rewrite emit_disabled by assumption. tauto.
  - intros b H. start_cases b; exact H.
  - intros b H. exact H.
Qed.

(** ** Construction *)

Lemma init_queue_bounded (rt : Runtime) (a : Args) : queue_bounded (init rt a).
Proof.
  unfold init, queue_bounded.
  match goal with |- context [if ?c then _ else _] => destruct c end.
  - rewrite start_idle by reflexivity. simpl. unfold EventQueue.size. simpl.
    rewrite len_nil. lia.
  - simpl. unfold EventQueue.size. simpl. rewrite len_nil. lia.
Qed.

Lemma init_threads (rt : Runtime) (a : Args) : threads_consistent (init rt a).
Proof.
  unfold init, threads_consistent.
  match goal with |- context [if ?c then _ else _] => destruct c end.
  - rewrite start_idle by reflexivity. unfold worker_alive. reflexivity.
  - unfold worker_alive. reflexivity.
Qed.

Lemma init_batches_nonempty (rt : Runtime) (a : Args) : batches_nonempty (init rt a).
Proof.
  unfold init, batches_nonempty.
  match goal with |- context [if ?c then _ else _] => destruct c end.
  - rewrite start_idle by reflexivity. simpl. constructor.
  - simpl. constructor.
Qed.

Lemma no_credential_falsy (rt : Runtime) (a : Args) :
  no_credential rt a ->
  truthy (str_or (arg_api_key a) (getenv (environ rt) "COLLAB_API_KEY" "")) = false.
Proof.
  unfold no_credential, str_or, getenv. intros [[Ha | Ha] [He | He]];
    rewrite Ha, He; reflexivity.
Qed.

Lemma init_silent (rt : Runtime) (a : Args) : no_credential rt a -> silent (init rt a).
Proof.
  intros H. pose proof (no_credential_falsy rt a H) as Hf.
  unfold init. rewrite Hf, andb_false_r. unfold silent. simpl. tauto.
Qed.

(** * The queue contract *)

(** C3: [put] never blocks without bound (it waits at most 0.1 s, and not at
    all unless [block] is set); on a queue with room it returns [True] and
    the event is appended; on a queue that is full for the whole wait it
    returns [False], the overflow counter grows by exactly one, and the
    queue is left as it was: the event is discarded, not kept for a retry. *)
Theorem put_returns_or_drops (event : CollaborationEvent) (block : bool)
        (q : EventQueue.t) :
  PrimFloat.leb (EventQueue.put_wait_bound block) 0.1%float = true
  /\ (EventQueue.full q = false ->
      EventQueue.put event block q
      = (true, EventQueue.mk (EventQueue.queue q ++ [event]) (EventQueue.maxsize q)
                             (EventQueue.dropped_count q)))
  /\ (EventQueue.full q = true ->
      fst (EventQueue.put event block q) = false
      /\ EventQueue.get_dropped_count (snd (EventQueue.put event block q))
         = EventQueue.get_dropped_count q + 1
      /\ EventQueue.queue (snd (EventQueue.put event block q)) = EventQueue.queue q
      /\ EventQueue.maxsize (snd (EventQueue.put event block q)) = EventQueue.maxsize q).
Proof.
  split; [ destruct block; reflexivity | split ].
  - apply put_room.
  - intros Hfull. rewrite (put_full event block q Hfull). simpl. repeat split.
Qed.

Lemma put_returns_or_drops_witness :
  EventQueue.put (Demo.event "e1") false (EventQueue.init 2)
  = (true, EventQueue.mk [Demo.event "e1"] 2 0)
  /\ fst (EventQueue.put (Demo.event "e3") false Demo.full_queue) = false
  /\ EventQueue.get_dropped_count
       (snd (EventQueue.put (Demo.event "e3") false Demo.full_queue))
     = EventQueue.get_dropped_count Demo.full_queue + 1.
Proof.
  split.
  - apply (proj1 (proj2 (put_returns_or_drops (Demo.event "e1") false
                                              (EventQueue.init 2)))).
    reflexivity.
  - assert (Hfull : EventQueue.full Demo.full_queue = true) by reflexivity.
    destruct (proj2 (proj2 (put_returns_or_drops (Demo.event "e3") false
                                                   Demo.full_queue)) Hfull)
      as (H1 & H2 & _).
    split; [ exact H1 | exact H2 ].
Defined.

(** C9, as the specification states it, fails on a queue built with capacity
    0 (or a negative one): [queue.Queue] then has no bound, so one [put]
    already takes the size above the capacity and nothing is ever dropped. *)
Lemma unbounded_queue_exceeds_capacity :
  EventQueue.maxsize (put_all [Demo.event "e1"] (EventQueue.init 0)) = 0
  /\ EventQueue.size (put_all [Demo.event "e1"] (EventQueue.init 0)) = 1
  /\ EventQueue.get_dropped_count (put_all [Demo.event "e1"] (EventQueue.init 0)) = 0.
Proof. repeat split. Qed.

(** C9 (amended): for a queue built with a positive capacity, [size() <=
    capacity] holds after every history of [put] and [get]; putting N <=
    capacity events with no [get] gives size N and no drop; putting
    capacity + K events (K > 0) with no [get] drops exactly K of them, the
    newest ones, and leaves the queue at capacity; the overflow counter
    never decreases, whatever the capacity.  The queue of a bridge always
    has capacity 1000 and stays within it along every history.  A queue
    built with capacity 0 or a negative one is unbounded: every [put]
    succeeds, all the events are in the queue in the order they were put,
    and nothing is dropped. *)
Theorem bounded_queue_sheds_overflow (capacity : Z) (Hpos : 0 < capacity) :
  (forall calls,
      EventQueue.size (queue_run calls (EventQueue.init capacity)) <= capacity)
  /\ (forall events,
         len events <= capacity ->
         EventQueue.size (put_all events (EventQueue.init capacity)) = len events
         /\ EventQueue.get_dropped_count (put_all events (EventQueue.init capacity)) = 0)
  /\ (forall events K,
         0 < K -> len events = capacity + K ->
         EventQueue.get_dropped_count (put_all events (EventQueue.init capacity)) = K
         /\ EventQueue.size (put_all events (EventQueue.init capacity)) = capacity
         /\ EventQueue.queue (put_all events (EventQueue.init capacity))
            = firstn (Z.to_nat capacity) events)
  /\ (forall calls q,
         EventQueue.get_dropped_count q
         <= EventQueue.get_dropped_count (queue_run calls q))
  /\ (forall rt a calls,
         EventQueue.size (event_queue (run calls (init rt a)))
         <= EventQueue.maxsize (event_queue (run calls (init rt a)))
         /\ EventQueue.maxsize (event_queue (run calls (init rt a))) = 1000)
  /\ (forall unbounded events event block,
         unbounded <= 0 ->
         EventQueue.size (put_all events (EventQueue.init unbounded)) = len events
         /\ EventQueue.get_dropped_count (put_all events (EventQueue.init unbounded)) = 0
         /\ EventQueue.queue (put_all events (EventQueue.init unbounded)) = events
         /\ fst (EventQueue.put event block (put_all events (EventQueue.init unbounded)))
            = true).
Proof.
  assert (Hside : forall l : list CollaborationEvent,
             len l <= capacity ->
             EventQueue.size (EventQueue.init capacity) + len l
             <= EventQueue.maxsize (EventQueue.init capacity)).
  { intros l Hl. unfold EventQueue.size; simpl. lia. }
  split; [ | split; [ | split; [ | split; [ | split ] ] ] ].
  - intros calls.
    apply (queue_run_bounded calls (EventQueue.init capacity)); [ exact Hpos | ].
    unfold EventQueue.size, len; simpl; lia.
  - intros events Hle.
    rewrite (put_all_room events (EventQueue.init capacity) Hpos (Hside events Hle)).
    split; reflexivity.
  - intros events K HK Hlen.
    set (n := Z.to_nat capacity).
    assert (Hn : (n <= length events)%nat) by (unfold len in Hlen; lia).
    assert (Hfirst : len (firstn n events) = capacity).
    { unfold len. rewrite length_firstn. lia. }
    assert (Hskip : len (skipn n events) = K).
    { unfold len in *. rewrite length_skipn. lia. }
    assert (Hsplit : put_all events (EventQueue.init capacity)
                     = put_all (skipn n events)
                               (put_all (firstn n events) (EventQueue.init capacity))).
    { rewrite <- put_all_app, firstn_skipn. reflexivity. }
    rewrite Hsplit.
    rewrite (put_all_room (firstn n events) (EventQueue.init capacity) Hpos
                          (Hside (firstn n events) ltac:(lia))).
    rewrite put_all_full; [ | exact Hpos | exact Hfirst ].
    unfold EventQueue.size, EventQueue.get_dropped_count; simpl.
    repeat split; lia.
  - intros calls q. apply queue_run_dropped.
  - intros rt a calls.
    assert (H : queue_bounded (run calls (init rt a))).
    { apply run_invariant; [ apply step_queue_bounded | apply init_queue_bounded ]. }
    destruct H as [Hm Hs]. rewrite Hm. split; [ exact Hs | reflexivity ].
  - intros unbounded events event block Hun.
    rewrite (put_all_fits events (EventQueue.init unbounded) (or_introl Hun)).
    unfold EventQueue.size, EventQueue.get_dropped_count, EventQueue.put,
      EventQueue.full. simpl.
    assert (Hroom : (0 <? unbounded) = false) by (apply Z.ltb_ge; exact Hun).
    rewrite Hroom. repeat split.
Qed.

Lemma bounded_queue_sheds_overflow_witness :
  EventQueue.get_dropped_count
    (put_all [Demo.event "e1"; Demo.event "e2"; Demo.event "e3"] (EventQueue.init 2)) = 1
  /\ EventQueue.size
       (put_all [Demo.event "e1"; Demo.event "e2"; Demo.event "e3"] (EventQueue.init 2)) = 2
  /\ EventQueue.queue
       (put_all [Demo.event "e1"; Demo.event "e2"; Demo.event "e3"] (EventQueue.init 2))
     = firstn (Z.to_nat 2) [Demo.event "e1"; Demo.event "e2"; Demo.event "e3"].
Proof.
  apply (proj1 (proj2 (proj2 (bounded_queue_sheds_overflow 2 ltac:(lia))))).
  - lia.
  - reflexivity.
Defined.

(** * Flushing *)



(** C10 does not hold of the code.  Its first half does: with the current
    batch empty, [_flush_batch] returns the bridge as it is.  Its consequence
    does not, because nothing serialises the flush of [stop] with the flushes
    of the worker.  A bridge holds one event in its batch and its queue is
    empty; [stop] is called while the worker waits in [get]; the request of
    the caller is still in flight when the worker observes the signal, sends
    the same batch again, counts it and clears the batch; the caller then
    counts a batch too, with the length the batch has by then, which is 0.
    Two batches are counted for one event counted as sent. *)
Theorem overlapping_flush_counts_an_empty_batch :
  _flush_batch Demo.delivered (init Demo.runtime (Demo.args 10))
  = init Demo.runtime (Demo.args 10)
  /\ running Demo.one_batched = true
  /\ current_batch Demo.one_batched = [Demo.event "e1"]
  /\ EventQueue.queue (event_queue Demo.one_batched) = []
  /\ wire (stop Demo.racing 5.0%float Demo.one_batched)
     = [batch_request Demo.one_batched [Demo.event "e1"];
        batch_request Demo.one_batched [Demo.event "e1"]]
  /\ stats (stop Demo.racing 5.0%float Demo.one_batched) = mkStats 1 0 2 0
  /\ batches_sent (stats (stop Demo.racing 5.0%float Demo.one_batched)) = 2
  /\ events_sent (stats (stop Demo.racing 5.0%float Demo.one_batched)) = 1.
Proof. vm_compute. repeat split. Qed.

(** * The facade *)

(** C5: a bridge built with no credential is disabled, and stays so along
    every history of calls and worker iterations: every [emit_event] returns
    [False] and leaves the bridge as it is (no event is built or queued),
    [get_stats()] reports [events_sent = 0], and nothing is ever put on the
    wire. *)
Theorem disabled_bridge_is_inert (rt : Runtime) (a : Args) (calls : list Call) :
  no_credential rt a ->
  enabled (init rt a) = false
  /\ enabled (run calls (init rt a)) = false
  /\ (forall uuid4 now event_type content operation_id session_id user_id metadata,
         emit_event uuid4 now event_type content operation_id session_id user_id
                    metadata (run calls (init rt a))
         = Some (false, run calls (init rt a)))
  /\ events_sent (snap_stats (get_stats (run calls (init rt a)))) = 0
  /\ queue_size (get_stats (run calls (init rt a))) = 0
  /\ wire (run calls (init rt a)) = [].
Proof.
  intros Hno.
  assert (H0 : silent (init rt a)) by (apply init_silent, Hno).
  assert (H : silent (run calls (init rt a))).
  { apply (run_invariant silent); [ apply step_silent | exact H0 ]. }
  destruct H0 as (He0 & _). destruct H as (He & Hq & Hb & Hw & Hs).
  split; [ exact He0 | split; [ exact He | split; [ | split; [ | split ] ] ] ].
  - intros. apply emit_disabled, He.
  - exact Hs.
  - unfold get_stats, EventQueue.size. simpl. rewrite Hq. reflexivity.
  - exact Hw.
Qed.

Lemma disabled_bridge_is_inert_witness :
  enabled (init Demo.runtime Demo.args_no_key) = false
  /\ wire (run [Demo.emit "e1"; CallStart; WorkerStep Demo.late;
                CallStop Demo.racing 5.0%float]
               (init Demo.runtime Demo.args_no_key)) = [].
Proof.
  destruct (disabled_bridge_is_inert Demo.runtime Demo.args_no_key
              [Demo.emit "e1"; CallStart; WorkerStep Demo.late;
               CallStop Demo.racing 5.0%float])
    as (H1 & _ & _ & _ & _ & H2).
  - split; left; reflexivity.
  - split; [ exact H1 | exact H2 ].
Defined.

Lemma start_gives_worker (b : PythonEventBridge.t) : worker_alive (start b) = true.
Proof.
  destruct (worker_alive b) eqn:Ha.
  - rewrite start_alive; assumption.
  - rewrite start_idle by assumption. reflexivity.
Qed.

Lemma start_start (b : PythonEventBridge.t) : start (start b) = start b.
Proof. apply start_alive, start_gives_worker. Qed.

Lemma live_threads_consistent (b : PythonEventBridge.t) :
  threads_consistent b ->
  live_threads b = if worker_alive b then 1%nat else 0%nat.
Proof. unfold threads_consistent, live_threads. intros H. rewrite H. lia. Qed.

Lemma run_threads (rt : Runtime) (a : Args) (calls : list Call) :
  threads_consistent (run calls (init rt a)).
Proof. apply run_invariant; [ apply step_threads | apply init_threads ]. Qed.

(** C7, as the specification states it, fails when [join] times out.  A
    bridge holds one event in its batch and its queue is empty; [stop] is
    called with a timeout of 0.01 s while the worker waits in [get], whose
    wait ends only 0.05 s later: the caller sends the batch and returns with
    the worker alive.  The second [stop] in a row is then no no-op: it finds
    the worker alive, goes through its flush and waits in [join] until the
    worker has ended. *)
Lemma second_stop_after_timeout_waits :
  running Demo.one_batched = true
  /\ worker_alive (stop Demo.brief 0.01%float Demo.one_batched) = true
  /\ stop_event (stop Demo.brief 0.01%float Demo.one_batched) = true
  /\ live_threads (stop Demo.brief 0.01%float Demo.one_batched) = 1%nat
  /\ wire (stop Demo.brief 0.01%float Demo.one_batched)
     = [batch_request Demo.one_batched [Demo.event "e1"]]
  /\ worker_alive (stop Demo.again 5.0%float
                        (stop Demo.brief 0.01%float Demo.one_batched))
     = false
  /\ live_threads (stop Demo.again 5.0%float
                        (stop Demo.brief 0.01%float Demo.one_batched))
     = 0%nat.
Proof. vm_compute. repeat split. Qed.

(** C7 (amended): [start] is idempotent: with a worker alive it returns the
    bridge as it is, so two calls in a row equal one and, along every
    history, leave exactly one worker thread alive.  [stop] returns the
    bridge as it is when no worker is alive; so the second of two calls in a
    row does nothing whenever the first has seen the worker end within its
    timeout, and no worker thread is alive afterwards.  When [join] timed out
    the worker is still alive and the stop signal set, and the second call
    goes through its flush (the request, the worker at work meanwhile, the
    counting) and its [join] again; at most one worker thread is alive
    either way. *)
Theorem start_stop_idempotent (b : PythonEventBridge.t) (sd sd' : Shutdown)
        (timeout timeout' : float) (rt : Runtime) (a : Args) (calls : list Call) :
  start (start b) = start b
  /\ worker_alive (start b) = true
  /\ (worker_alive b = true -> start b = b)
  /\ (worker_alive b = false -> stop sd timeout b = b)
  /\ (worker_alive (stop sd timeout b) = false ->
      stop sd' timeout' (stop sd timeout b) = stop sd timeout b)
  /\ live_threads (start (start (run calls (init rt a)))) = 1%nat
  /\ (worker_alive (stop sd timeout (run calls (init rt a))) = false ->
      live_threads (stop sd' timeout' (stop sd timeout (run calls (init rt a)))) = 0%nat)
  /\ (live_threads (stop sd' timeout' (stop sd timeout (run calls (init rt a)))) <= 1)%nat
  /\ (worker_alive (stop sd timeout b) = true ->
      let signalled :=
        set_in_iteration (in_iteration (stop sd timeout b))
                         (set_stop_event true (stop sd timeout b)) in
      stop_event (stop sd timeout b) = true
      /\ stop sd' timeout' (stop sd timeout b)
         = join (PrimFloat.add (join_started sd') timeout') (during_join sd')
                match current_batch (stop sd timeout b) with
                | [] => signalled
                | _ :: _ =>
                    flush_returns (caller_exchange sd')
                                  (worker_moves (during_post sd') (flush_posts signalled))
                end).
Proof.
  split; [ apply start_start | ].
  split; [ apply start_gives_worker | ].
  split; [ apply start_alive | ].
  split; [ apply stop_idle | ].
  split; [ apply stop_idle | ].
  assert (Hstops :
    threads_consistent (stop sd' timeout' (stop sd timeout (run calls (init rt a))))).
  { change (stop sd' timeout' (stop sd timeout (run calls (init rt a))))
      with (run [CallStop sd timeout; CallStop sd' timeout'] (run calls (init rt a))).
    rewrite <- run_app. apply run_threads. }
  split; [ | split; [ | split ] ].
  - rewrite start_start.
    change (start (run calls (init rt a))) with (run [CallStart] (run calls (init rt a))).
    rewrite <- run_app.
    rewrite (live_threads_consistent _ (run_threads rt a (calls ++ [CallStart]))).
    rewrite run_app. simpl run. unfold step. rewrite start_gives_worker. reflexivity.
  - intros Hended. rewrite (live_threads_consistent _ Hstops).
    rewrite (stop_idle sd' timeout' _ Hended), Hended. reflexivity.
  - rewrite (live_threads_consistent _ Hstops).
    destruct (worker_alive _); lia.
  - intros Halive. cbv zeta.
    destruct (stop_timed_out sd timeout b Halive) as [_ Hs].
    split; [ exact Hs | ].
    rewrite (stop_alive sd' timeout' _ Halive). cbv zeta. rewrite Hs.
    destruct (current_batch (stop sd timeout b)); reflexivity.
Qed.

Lemma start_stop_idempotent_witness :
  start Demo.one_batched = Demo.one_batched
  /\ stop Demo.racing 5.0%float (init Demo.runtime Demo.args_no_key)
     = init Demo.runtime Demo.args_no_key
  /\ stop Demo.again 5.0%float (stop Demo.calm 5.0%float Demo.one_batched)
     = stop Demo.calm 5.0%float Demo.one_batched.
Proof.
  destruct (start_stop_idempotent Demo.one_batched Demo.calm Demo.again
              5.0%float 5.0%float Demo.runtime Demo.args_no_key [])
    as (_ & _ & H1 & _ & H3 & _).
  destruct (start_stop_idempotent (init Demo.runtime Demo.args_no_key)
              Demo.racing Demo.calm 5.0%float 5.0%float Demo.runtime Demo.args_no_key [])
    as (_ & _ & _ & H2 & _).
  split; [ apply H1 | split; [ apply H2 | apply H3 ] ]; reflexivity.
Defined.

(** The requests a flush adds to the wire: the current batch as one request,
    or nothing when the batch is empty. *)
Lemma flush_wire (x : Exchange) (b : PythonEventBridge.t) :
  wire (_flush_batch x b) = wire b ++ as_request b (current_batch b).
Proof.
  destruct (current_batch b) as [|e l] eqn:Hb.
  - rewrite flush_empty by assumption. simpl. rewrite app_nil_r. reflexivity.
  - rewrite flush_nonempty by congruence. simpl. rewrite Hb. reflexivity.
Qed.



Lemma get_tail (q : EventQueue.t) :
  EventQueue.queue (queue_step QGet q) = tl (EventQueue.queue q).
Proof.
  simpl. unfold EventQueue.get.
  destruct (EventQueue.queue q) as [|e rest] eqn:Hq; simpl; [ exact Hq | reflexivity ].
Qed.

(** C1 does not hold of the code: [stop] does not drain the queue, although
    its docstring speaks of flushing the remaining events.  A bridge (batch
    size 10) holds one event in its batch and two in its queue.  [stop] sets
    the stop signal and flushes the batch, which holds the first event only;
    the worker tests the signal before every [get], so it takes at most the
    one event of the iteration it is in the middle of.  When the worker is at
    the head of its loop both queued events stay in the queue; when it is
    waiting in [get] it takes the second event, which goes out with its final
    flush, and the third stays in the queue.  Either way [stop] returns with
    the worker ended and events left behind; and the first event goes out
    twice, in the request of the caller and, that request being still in
    flight, in the final flush of the worker. *)
Theorem stop_leaves_queued_events :
  running Demo.one_batched_two_queued = true
  /\ current_batch Demo.one_batched_two_queued = [Demo.event "e1"]
  /\ EventQueue.queue (event_queue Demo.one_batched_two_queued)
     = [Demo.event "e2"; Demo.event "e3"]
  /\ batch_size Demo.one_batched_two_queued = 10
  /\ wire (stop Demo.calm 5.0%float Demo.one_batched_two_queued)
     = [batch_request Demo.one_batched_two_queued [Demo.event "e1"];
        batch_request Demo.one_batched_two_queued [Demo.event "e1"]]
  /\ EventQueue.queue (event_queue (stop Demo.calm 5.0%float Demo.one_batched_two_queued))
     = [Demo.event "e2"; Demo.event "e3"]
  /\ worker_alive (stop Demo.calm 5.0%float Demo.one_batched_two_queued) = false
  /\ queue_size (get_stats (stop Demo.calm 5.0%float Demo.one_batched_two_queued)) = 2
  /\ wire (stop Demo.racing 5.0%float Demo.one_batched_two_queued)
     = [batch_request Demo.one_batched_two_queued [Demo.event "e1"];
        batch_request Demo.one_batched_two_queued [Demo.event "e1"; Demo.event "e2"]]
  /\ EventQueue.queue (event_queue (stop Demo.racing 5.0%float
                                         Demo.one_batched_two_queued))
     = [Demo.event "e3"]
  /\ worker_alive (stop Demo.racing 5.0%float Demo.one_batched_two_queued) = false.
Proof. vm_compute. repeat split. Qed.

(** * The transport *)

Lemma same_header_refl (k : string) : same_header k k = true.
Proof. unfold same_header. apply String.eqb_refl. Qed.

Lemma same_header_trans (k1 k2 k3 : string) :
  same_header k1 k2 = true -> same_header k2 k3 = true -> same_header k1 k3 = true.
Proof.
  unfold same_header. rewrite !String.eqb_eq. intros H1 H2. congruence.
Qed.

Lemma same_header_sym (k1 k2 : string) : same_header k1 k2 = same_header k2 k1.
Proof. unfold same_header. apply String.eqb_sym. Qed.

Lemma header_get_set_same (key value : string) (hs : Headers) :
  header_get key (header_set key value hs) = Some value.
Proof.
  induction hs as [|[k v] hs IH]; simpl.
  - rewrite same_header_refl. reflexivity.
  - destruct (same_header key k) eqn:E; simpl.
    + rewrite same_header_refl. reflexivity.
    + rewrite E. exact IH.
Qed.

Lemma header_get_set_other (key key' value : string) (hs : Headers) :
  same_header key key' = false ->
  header_get key (header_set key' value hs) = header_get key hs.
Proof.
  intros Hne. induction hs as [|[k v] hs IH]; simpl.
  - rewrite Hne. reflexivity.
  - destruct (same_header key' k) eqn:E; simpl.
    + rewrite Hne. destruct (same_header key k) eqn:E'; [ | reflexivity ].
      rewrite same_header_sym in E.
      rewrite (same_header_trans key k key' E' E) in Hne. discriminate.
    + destruct (same_header key k); [ reflexivity | exact IH ].
Qed.

(** The session [_create_session] builds declares JSON content and carries
    the credential, whatever headers the HTTP library starts from. *)
Lemma create_session_headers (defaults : Headers) (retries : Z) (key : string) :
  header_get "Content-Type" (headers (_create_session defaults retries key))
  = Some "application/json"
  /\ header_get "X-API-Key" (headers (_create_session defaults retries key)) = Some key.
Proof.
  unfold _create_session, headers_update. simpl. split.
  - rewrite header_get_set_other by reflexivity.
    rewrite header_get_set_other by reflexivity.
    apply header_get_set_same.
  - rewrite header_get_set_other by reflexivity.
    apply header_get_set_same.
Qed.

Lemma asdict_fields (events : list CollaborationEvent) :
  Forall (fun j => json_keys j = event_fields) (map asdict events).
Proof. induction events; simpl; constructor; [ reflexivity | assumption ]. Qed.

Lemma run_session (rt : Runtime) (a : Args) (calls : list Call) :
  session (run calls (init rt a))
  = _create_session (requests_default_headers rt) (arg_max_retries a)
                    (api_key (run calls (init rt a)))
  /\ api_url (run calls (init rt a))
     = str_or (arg_api_url a)
              (getenv (environ rt) "COLLAB_API_URL" "http://localhost:8081/api/events")
  /\ api_key (run calls (init rt a))
     = str_or (arg_api_key a) (getenv (environ rt) "COLLAB_API_KEY" "").
Proof.
  destruct (run_config calls (init rt a)) as (Hu & Hk & _ & _ & _ & _ & Hs).
  rewrite Hs, Hu, Hk. unfold init.
  match goal with |- context [if ?c then _ else _] => destruct c end.
  - rewrite start_idle by reflexivity. repeat split.
  - repeat split.
Qed.

(** C8: along every history of a bridge, a flush of a non-empty batch puts
    exactly one request on the wire: a POST to the configured endpoint whose
    JSON body is [{"events": [...]}] with one object per event of the batch,
    in order, each with the keys id, type, content, timestamp, operation_id,
    session_id, user_id and metadata; its headers declare
    [Content-Type: application/json] and carry the credential in
    [X-API-Key]. *)
Theorem flushed_batch_is_one_post (rt : Runtime) (a : Args) (calls : list Call)
        (x : Exchange) :
  current_batch (run calls (init rt a)) <> [] ->
  exists rq,
    wire (_flush_batch x (run calls (init rt a))) = wire (run calls (init rt a)) ++ [rq]
    /\ method rq = "POST"
    /\ url rq = str_or (arg_api_url a)
                       (getenv (environ rt) "COLLAB_API_URL"
                               "http://localhost:8081/api/events")
    /\ json_body rq
       = JObj [("events", JList (map asdict (current_batch (run calls (init rt a)))))]
    /\ Forall (fun j => json_keys j = event_fields) (request_events rq)
    /\ length (request_events rq) = length (current_batch (run calls (init rt a)))
    /\ header_get "Content-Type" (request_headers rq) = Some "application/json"
    /\ header_get "X-API-Key" (request_headers rq)
       = Some (str_or (arg_api_key a) (getenv (environ rt) "COLLAB_API_KEY" "")).
Proof.
  intros Hne. set (b := run calls (init rt a)) in *.
  exists (batch_request b (current_batch b)).
  destruct (run_session rt a calls) as (Hs & Hu & Hk). fold b in Hs, Hu, Hk.
  split; [ rewrite flush_nonempty by assumption; reflexivity | ].
  split; [ reflexivity | ].
  split; [ exact Hu | ].
  split; [ reflexivity | ].
  split; [ rewrite request_events_batch; apply asdict_fields | ].
  split; [ rewrite request_events_batch; apply length_map | ].
  unfold batch_request, post. simpl request_headers. rewrite Hs, Hk.
  apply create_session_headers.
Qed.

Lemma flushed_batch_is_one_post_witness :
  exists rq,
    wire (_flush_batch Demo.delivered Demo.one_batched) = wire Demo.one_batched ++ [rq]
    /\ method rq = "POST"
    /\ url rq = "http://localhost:8081/api/events"
    /\ json_body rq = JObj [("events", JList [asdict (Demo.event "e1")])]
    /\ Forall (fun j => json_keys j = event_fields) (request_events rq)
    /\ length (request_events rq) = 1%nat
    /\ header_get "Content-Type" (request_headers rq) = Some "application/json"
    /\ header_get "X-API-Key" (request_headers rq) = Some "secret".
Proof.
  apply (flushed_batch_is_one_post Demo.runtime (Demo.args 10)
           [Demo.emit "e1"; WorkerStep Demo.early] Demo.delivered).
  vm_compute. discriminate.
Defined.

(** * Batching *)

Lemma iterate_cons (tk : Tick) (ticks : list Tick) (b : PythonEventBridge.t) :
  iterate (tk :: ticks) b = iterate ticks (step (WorkerStep tk) b).
Proof. reflexivity. Qed.


Lemma running_step (tk : Tick) (b : PythonEventBridge.t) :
  running b = true -> step (WorkerStep tk) b = worker_iteration tk b.
Proof. intros H. simpl. unfold worker_step. unfold running in H. rewrite H. reflexivity. Qed.






Lemma running_alive (b : PythonEventBridge.t) :
  running b = true -> worker_alive b = true.
Proof. unfold running. intros H. apply andb_true_iff in H. tauto. Qed.



(** * The time trigger *)

(** In an iteration that takes an event, the batch is flushed exactly when
    the size trigger or the time trigger fires. *)
Lemma iteration_flushes_when_due (tk : Tick) (b : PythonEventBridge.t)
      (event : CollaborationEvent) (rest : list CollaborationEvent) :
  EventQueue.queue (event_queue b) = event :: rest ->
  current_batch (worker_iteration tk b)
  = if (batch_size b <=? len (current_batch b ++ [event]))
       || PrimFloat.leb (batch_timeout b) (PrimFloat.sub (now tk) (last_batch_time b))
    then [] else current_batch b ++ [event].
Proof.
  intros Hq. rewrite (iteration_take tk b event rest Hq). unfold flush_due. simpl.
  match goal with |- context [if ?c then _ else _] => destruct c end.
  - apply flush_clears.
  - reflexivity.
Qed.

(** An iteration that finds the queue empty never looks at the clock. *)
Lemma idle_iterations (ticks : list Tick) (b : PythonEventBridge.t) :
  running b = true ->
  EventQueue.queue (event_queue b) = [] -> iterate ticks b = b.
Proof.
  intros Hrun Hq. induction ticks as [|tk ticks IH]; [ reflexivity | ].
  rewrite iterate_cons, (running_step tk b Hrun), (iteration_idle tk b Hq). exact IH.
Qed.

(** C2 does not hold of the code: a bridge (batch size 10, timeout 0.5 s)
    holds one event in its batch and its queue is empty; one minute later
    the time trigger is due, yet the iterations of the worker leave the
    batch unsent, because the flush condition is only evaluated after an
    event has been taken from the queue. *)
Theorem pending_batch_outlives_timeout :
  running Demo.one_batched = true
  /\ current_batch Demo.one_batched = [Demo.event "e1"]
  /\ EventQueue.queue (event_queue Demo.one_batched) = []
  /\ flush_due (now Demo.late) Demo.one_batched = true
  /\ iterate [Demo.late; Demo.late; Demo.late] Demo.one_batched = Demo.one_batched
  /\ wire (iterate [Demo.late; Demo.late; Demo.late] Demo.one_batched) = [].
Proof.
  assert (Hq : EventQueue.queue (event_queue Demo.one_batched) = []) by reflexivity.
  rewrite (idle_iterations [Demo.late; Demo.late; Demo.late] Demo.one_batched
                           eq_refl Hq).
  vm_compute. repeat split.
Qed.

(** * Further properties of the queue *)

Lemma drain_fifo (n : nat) :
  forall q : EventQueue.t,
    drain n q
    = (firstn n (EventQueue.queue q),
       EventQueue.mk (skipn n (EventQueue.queue q)) (EventQueue.maxsize q)
                     (EventQueue.dropped_count q)).
Proof.
  induction n as [|n IH]; intros [items cap dropped]; simpl.
  - reflexivity.
  - unfold EventQueue.get. simpl. destruct items as [|e rest].
    + rewrite IH. simpl. rewrite firstn_nil, skipn_nil. reflexivity.
    + rewrite IH. reflexivity.
Qed.

(** X1: the queue is first-in first-out and [get] only removes: [n] calls of
    [get] return the [n] oldest events in the order they were put (fewer when
    the queue runs empty, a call on an empty queue returning [None]), leave
    the younger ones in place, and change neither the capacity nor the
    overflow counter. *)
Theorem get_returns_oldest_first (n : nat) (q : EventQueue.t) :
  fst (drain n q) = firstn n (EventQueue.queue q)
  /\ EventQueue.queue (snd (drain n q)) = skipn n (EventQueue.queue q)
  /\ EventQueue.maxsize (snd (drain n q)) = EventQueue.maxsize q
  /\ EventQueue.get_dropped_count (snd (drain n q)) = EventQueue.get_dropped_count q
  /\ EventQueue.size (snd (drain n q)) = Z.max 0 (EventQueue.size q - Z.of_nat n).
Proof.
  rewrite drain_fifo. simpl. repeat split.
  unfold EventQueue.size, len. simpl. rewrite length_skipn. lia.
Qed.

(** X2: what is put comes back: events put on a new queue that has room for
    them (or no bound) are returned by as many calls of [get], all of them
    and in the order of the [put]s; the queue is then as new, and a further
    [get] returns [None]. *)
Theorem put_then_get_round_trip (capacity : Z) (events : list CollaborationEvent) :
  capacity <= 0 \/ len events <= capacity ->
  drain (length events) (put_all events (EventQueue.init capacity))
  = (events, EventQueue.init capacity)
  /\ EventQueue.get (snd (drain (length events)
                                (put_all events (EventQueue.init capacity))))
     = (None, EventQueue.init capacity).
Proof.
  intros Hfit.
  assert (Hput : put_all events (EventQueue.init capacity)
                 = EventQueue.mk events capacity 0).
  { rewrite put_all_fits; [ reflexivity | ].
    unfold EventQueue.size; simpl. destruct Hfit; [ left | right ]; lia. }
  rewrite Hput, drain_fifo. simpl.
  rewrite firstn_all, skipn_all. split; reflexivity.
Qed.

Lemma put_then_get_round_trip_witness :
  drain 2 (put_all [Demo.event "e1"; Demo.event "e2"] (EventQueue.init 2))
  = ([Demo.event "e1"; Demo.event "e2"], EventQueue.init 2)
  /\ EventQueue.get (snd (drain 2 (put_all [Demo.event "e1"; Demo.event "e2"]
                                          (EventQueue.init 2))))
     = (None, EventQueue.init 2).
Proof.
  apply (put_then_get_round_trip 2 [Demo.event "e1"; Demo.event "e2"]).
  right. vm_compute. discriminate.
Defined.

(** * Further properties of the bridge *)

(** X3: [emit_event] returns [True] exactly when it has appended one event to
    the back of the queue, built from its arguments, the identifier drawn and
    the clock reading in milliseconds, with an empty dictionary in place of a
    missing metadata; when it returns [False] nothing is queued, and the drop
    is counted if the bridge is enabled.  Either way it sends nothing and
    leaves the batch, the statistics and the worker alone.  It raises only on
    an enabled bridge, when the clock reading is not a finite number. *)
Theorem emit_event_queues_or_drops
        (uuid4 : string) (now : float) (event_type content operation_id : string)
        (session_id user_id : option string) (metadata : option (list (string * json)))
        (b : PythonEventBridge.t) :
  match emit_event uuid4 now event_type content operation_id session_id user_id
                   metadata b with
  | Some (queued, b') =>
      wire b' = wire b /\ stats b' = stats b
      /\ current_batch b' = current_batch b
      /\ last_batch_time b' = last_batch_time b
      /\ worker_thread b' = worker_thread b /\ stop_event b' = stop_event b
      /\ same_config b b'
      /\ if queued
         then enabled b = true
              /\ EventQueue.get_dropped_count (event_queue b')
                 = EventQueue.get_dropped_count (event_queue b)
              /\ exists ms,
                  py_int (PrimFloat.mul now 1000%float) = Some ms
                  /\ EventQueue.queue (event_queue b')
                     = EventQueue.queue (event_queue b)
                       ++ [new_event uuid4 ms event_type content operation_id
                                     session_id user_id metadata]
         else EventQueue.queue (event_queue b') = EventQueue.queue (event_queue b)
              /\ EventQueue.get_dropped_count (event_queue b')
                 = EventQueue.get_dropped_count (event_queue b)
                   + (if enabled b then 1 else 0)
  | None => enabled b = true /\ clock_ok now = false
  end.
Proof.
  unfold emit_event, clock_ok, EventQueue.get_dropped_count.
  destruct (enabled b) eqn:He; simpl.
  - destruct (py_int (PrimFloat.mul now 1000%float)) as [ms|]; [ | split; reflexivity ].
    unfold EventQueue.put.
    destruct (EventQueue.full (event_queue b)); simpl; unfold same_config; simpl;
      repeat split.
    exists ms. split; reflexivity.
  - unfold same_config. repeat split. lia.
Qed.

Lemma wire_events_app (b : PythonEventBridge.t) (rq : Request) :
  concat (map request_events (wire b ++ [rq])) = wire_events b ++ request_events rq.
Proof.
  unfold wire_events. rewrite map_app, concat_app. simpl. rewrite app_nil_r. reflexivity.
Qed.

Lemma flush_pipeline (x : Exchange) (b : PythonEventBridge.t) :
  pipeline (_flush_batch x b) = pipeline b.
Proof.
  destruct (current_batch b) as [|e l] eqn:Hb.
  - rewrite flush_empty by assumption. reflexivity.
  - rewrite flush_nonempty by congruence. unfold pipeline, wire_events at 1.
    simpl wire. simpl current_batch. simpl event_queue.
    rewrite wire_events_app, request_events_batch, <- app_assoc. reflexivity.
Qed.

Lemma iteration_pipeline (tk : Tick) (b : PythonEventBridge.t) :
  pipeline (worker_iteration tk b) = pipeline b.
Proof.
  destruct (EventQueue.queue (event_queue b)) as [|e rest] eqn:Hq.
  - rewrite iteration_idle by assumption. reflexivity.
  - rewrite (iteration_take tk b e rest Hq).
    assert (Htaken :
      pipeline (set_current_batch (current_batch b ++ [e])
                  (set_event_queue (queue_step QGet (event_queue b)) b))
      = pipeline b).
    { unfold pipeline, wire_events. simpl. unfold EventQueue.get. rewrite Hq. simpl.
      rewrite map_app, <- app_assoc. reflexivity. }
    match goal with |- context [if ?c then _ else _] => destruct c end.
    + rewrite flush_pipeline. exact Htaken.
    + exact Htaken.
Qed.

Lemma thread_exit_pipeline (b : PythonEventBridge.t) : pipeline (thread_exit b) = pipeline b.
Proof.
  destruct (thread_exit_frame b) as (_ & Hq & Hb & _ & _ & _ & Hw & _).
  unfold pipeline, wire_events. rewrite Hq, Hb, Hw. reflexivity.
Qed.

Lemma start_pipeline (b : PythonEventBridge.t) : pipeline (start b) = pipeline b.
Proof.
  destruct (worker_alive b) eqn:Ha.
  - rewrite start_alive by assumption. reflexivity.
  - rewrite start_idle by assumption. reflexivity.
Qed.

Lemma worker_step_pipeline (tk : Tick) (b : PythonEventBridge.t) :
  pipeline (worker_step tk b) = pipeline b.
Proof.
  unfold worker_step.
  destruct (worker_alive b && negb (stop_event b)); [ apply iteration_pipeline | ].
  destruct (worker_alive b && in_iteration b); [ | reflexivity ].
  change (pipeline (set_in_iteration false (worker_iteration tk b)))
    with (pipeline (worker_iteration tk b)).
  apply iteration_pipeline.
Qed.

Lemma worker_exit_pipeline (final : Exchange) (b : PythonEventBridge.t) :
  pipeline (worker_exit final b) = pipeline b.
Proof.
  rewrite worker_exit_shape.
  destruct (worker_alive b && negb (in_iteration b) && stop_event b); [ | reflexivity ].
  rewrite thread_exit_pipeline. apply flush_pipeline.
Qed.

(** A step other than [stop] adds to the pipeline the events it accepts, at
    the back, and changes nothing else of it. *)
Lemma step_pipeline (c : Call) (b : PythonEventBridge.t) :
  no_stop c = true ->
  pipeline (step c b) = pipeline b ++ map asdict (accepted c b).
Proof.
  intros Hc.
  destruct c as [u n ty co op se us me| |sd timeout| |tk|final]; simpl accepted;
    rewrite ?app_nil_r.
  - simpl. unfold emit_event. destruct (enabled b); simpl;
      [ | rewrite app_nil_r; reflexivity ].
    destruct (py_int (PrimFloat.mul n 1000%float)) as [ms|];
      [ | destruct (EventQueue.full (event_queue b)); simpl; rewrite app_nil_r;
          reflexivity ].
    unfold EventQueue.put. destruct (EventQueue.full (event_queue b)); simpl.
    + rewrite app_nil_r. reflexivity.
    + unfold pipeline, wire_events. simpl. rewrite map_app, <- !app_assoc. reflexivity.
  - apply start_pipeline.
  - discriminate.
  - reflexivity.
  - apply worker_step_pipeline.
  - apply worker_exit_pipeline.
Qed.

Lemma transit_accepts_nothing (c : Call) (b : PythonEventBridge.t) :
  transit c = true -> no_stop c = true /\ accepted c b = [].
Proof. destruct c; simpl; intros H; try discriminate; split; reflexivity. Qed.

(** X4: as long as [stop] is not called, no event is lost, duplicated or
    reordered inside the bridge: along every history of [start],
    [get_stats], iterations of the worker and the exit of the worker from
    its loop, whatever the clock and the outcome of each send, the events
    handed to the transport so far, followed by those in the batch, followed
    by those in the queue, are the same sequence as before. *)
Theorem events_keep_their_order (calls : list Call) (b : PythonEventBridge.t) :
  forallb transit calls = true ->
  pipeline (run calls b) = pipeline b.
Proof.
  revert b. induction calls as [|c calls IH]; intros b Hall; [ reflexivity | ].
  simpl in Hall. apply andb_true_iff in Hall. destruct Hall as [Hc Hall].
  destruct (transit_accepts_nothing c b Hc) as [Hns Hacc].
  rewrite run_cons, (IH _ Hall), (step_pipeline c b Hns), Hacc.
  apply app_nil_r.
Qed.

Lemma events_keep_their_order_witness :
  pipeline (run Scenes.churn Demo.five_queued) = pipeline Demo.five_queued.
Proof.
  apply (events_keep_their_order Scenes.churn Demo.five_queued).
  reflexivity.
Defined.








Lemma accepted_carry_metadata (c : Call) (b : PythonEventBridge.t) :
  Forall carries_metadata (map asdict (accepted c b)).
Proof.
  destruct c as [u n ty co op se us me| |sd timeout| |tk|final]; simpl; try constructor.
  destruct (enabled b && negb (EventQueue.full (event_queue b))); [ | constructor ].
  destruct (py_int (PrimFloat.mul n 1000%float)) as [ms|]; [ | constructor ].
  simpl. constructor; [ | constructor ].
  eexists. eexists. split; reflexivity.
Qed.

Lemma init_pipeline (rt : Runtime) (a : Args) : pipeline (init rt a) = [].
Proof.
  unfold init.
  match goal with |- context [if ?c then _ else _] => destruct c end.
  - rewrite start_pipeline. reflexivity.
  - reflexivity.
Qed.

(** Every event in the bridge carries a metadata dictionary: an invariant of
    every step, [stop] and its unserialised flush included. *)
Lemma step_carries_metadata (c : Call) (b : PythonEventBridge.t) :
  Forall carries_metadata (pipeline b) ->
  Forall carries_metadata (pipeline (step c b)).
Proof.
  apply (preserved_step (fun b => Forall carries_metadata (pipeline b))); clear c b.
  - intros flag b H. exact H.
  - intros b _ H. unfold pipeline, flush_posts, wire_events in *. simpl wire.
    simpl current_batch. simpl event_queue.
    rewrite map_app, concat_app. simpl. rewrite app_nil_r, request_events_batch.
    rewrite !Forall_app in *. tauto.
  - intros x b H. rewrite flush_returns_fields. unfold pipeline, wire_events in *.
    simpl. rewrite !Forall_app in *. tauto.
  - intros tk b H. rewrite iteration_pipeline. exact H.
  - intros b H. rewrite thread_exit_pipeline. exact H.
  - intros u n ty co op se us me b H. rewrite step_pipeline by reflexivity.
    apply Forall_app. split; [ exact H | apply accepted_carry_metadata ].
  - intros b H. rewrite start_pipeline. exact H.
  - intros b H. exact H.
Qed.

(** X6: an event never goes out with a null metadata: along every history of
    a bridge, every event handed to the transport is the dictionary of an
    event whose metadata is a dictionary, the empty one when [emit_event] was
    given none. *)
Theorem wire_metadata_is_never_null (rt : Runtime) (a : Args) (calls : list Call) :
  Forall carries_metadata (wire_events (run calls (init rt a))).
Proof.
  assert (H : Forall carries_metadata (pipeline (run calls (init rt a)))).
  { apply (run_invariant (fun b => Forall carries_metadata (pipeline b))).
    - apply step_carries_metadata.
    - rewrite init_pipeline. constructor. }
  unfold pipeline in H. apply Forall_app in H. tauto.
Qed.







Lemma join_ended (deadline : float) (moves : list (float * WorkerMove))
      (b : PythonEventBridge.t) :
  worker_alive b = false -> join deadline moves b = b.
Proof.
  intros H. destruct moves as [|[finished m] moves]; simpl; [ | rewrite H ]; reflexivity.
Qed.

(** X19: the flush of [stop] and the final flush of the worker are not
    serialised.  [stop] is called on a running bridge with a batch to send
    and an empty queue, while the worker waits in [get]; if the wait of the
    worker ends and the worker runs its final flush while the request of the
    caller is in flight, the batch goes out twice.  The worker counts its
    events and clears it; the caller then counts a batch of no event: with
    both requests delivered, [batches_sent] grows by 2 and [events_sent] by
    the length of the batch. *)
Theorem overlapping_flushes_post_twice (sd : Shutdown) (timeout : float)
        (b : PythonEventBridge.t) (tk : Tick) (final : Exchange) :
  running b = true ->
  current_batch b <> [] ->
  EventQueue.queue (event_queue b) = [] ->
  in_flight sd = true ->
  during_post sd = [Iterate tk; Exit final] ->
  wire (stop sd timeout b)
  = wire b ++ [batch_request b (current_batch b); batch_request b (current_batch b)]
  /\ stats (stop sd timeout b)
     = flushed_stats (response (caller_exchange sd)) 0
         (flushed_stats (response final) (len (current_batch b)) (stats b))
  /\ current_batch (stop sd timeout b) = []
  /\ event_queue (stop sd timeout b) = event_queue b
  /\ worker_alive (stop sd timeout b) = false.
Proof.
  intros Hrun Hne Hq Hin Hpost.
  unfold running in Hrun. apply andb_true_iff in Hrun. destruct Hrun as [Ha Hs].
  apply negb_true_iff in Hs.
  rewrite (stop_alive sd timeout b Ha). cbv zeta. rewrite Hs, Hin, Hpost.
  destruct (current_batch b) as [|e l] eqn:Hb; [ congruence | ].
  set (s1 := flush_posts (set_in_iteration true (set_stop_event true b))).
  set (s2 := _flush_batch final (set_in_iteration false s1)).
  assert (H1 : worker_moves [Iterate tk; Exit final] s1 = thread_exit s2).
  { unfold worker_moves. simpl fold_left. unfold worker_step.
    assert (Ha1 : worker_alive s1 = true) by exact Ha.
    rewrite Ha1. simpl andb. cbv iota.
    rewrite (iteration_idle tk s1 Hq).
    rewrite worker_exit_shape.
    assert (Ha2 : worker_alive (set_in_iteration false s1) = true) by exact Ha.
    rewrite Ha2. reflexivity. }
  rewrite H1.
  assert (Hne2 : current_batch (set_in_iteration false s1) <> [])
    by (simpl; rewrite Hb; discriminate).
  assert (F : wire s2 = wire b ++ [batch_request b (e :: l); batch_request b (e :: l)]
              /\ stats s2 = flushed_stats (response final) (len (e :: l)) (stats b)
              /\ event_queue s2 = event_queue b).
  { subst s2. rewrite (flush_nonempty final _ Hne2). simpl. rewrite Hb, <- app_assoc.
    repeat split. }
  destruct F as (W2 & S2 & Q2).
  destruct (thread_exit_frame s2) as (_ & Xq & Xb & _ & _ & Xst & Xw & Xa & _).
  assert (Hdead : worker_alive (flush_returns (caller_exchange sd) (thread_exit s2)) = false).
  { rewrite flush_returns_fields. exact Xa. }
  rewrite (join_ended _ _ _ Hdead).
  rewrite flush_returns_fields. simpl.
  rewrite Xw, Xst, Xb, Xq, W2, S2, Q2.
  assert (Hb2 : current_batch s2 = []) by apply flush_clears.
  rewrite Hb2. repeat split.
  rewrite flush_returns_fields in Hdead. exact Hdead.
Qed.

Lemma overlapping_flushes_post_twice_witness :
  wire (stop Demo.racing 5.0%float Demo.one_batched)
  = wire Demo.one_batched
    ++ [batch_request Demo.one_batched (current_batch Demo.one_batched);
        batch_request Demo.one_batched (current_batch Demo.one_batched)]
  /\ stats (stop Demo.racing 5.0%float Demo.one_batched)
     = flushed_stats Delivered 0
         (flushed_stats Delivered (len (current_batch Demo.one_batched))
                        (stats Demo.one_batched)).
Proof.
  destruct (overlapping_flushes_post_twice Demo.racing 5.0%float Demo.one_batched
              Demo.early Demo.prompt) as (H1 & H2 & _); try reflexivity.
  - vm_compute. discriminate.
  - split; [ exact H1 | exact H2 ].
Defined.

Lemma plain_emit_counts (c : Call) (b : PythonEventBridge.t) :
  enabled b = true ->
  plain_emit c = true ->
  EventQueue.maxsize (event_queue b) = 1000 ->
  enabled (step c b) = true
  /\ EventQueue.maxsize (event_queue (step c b)) = 1000
  /\ (EventQueue.size (event_queue b) < 1000 ->
      EventQueue.size (event_queue (step c b)) = EventQueue.size (event_queue b) + 1
      /\ EventQueue.dropped_count (event_queue (step c b))
         = EventQueue.dropped_count (event_queue b))
  /\ (1000 <= EventQueue.size (event_queue b) ->
      EventQueue.size (event_queue (step c b)) = EventQueue.size (event_queue b)
      /\ EventQueue.dropped_count (event_queue (step c b))
         = EventQueue.dropped_count (event_queue b) + 1).
Proof.
  intros He Hc Hm.
  destruct c as [u n ty co op se us me| |sd timeout| |tk|final]; try discriminate.
  simpl in Hc. unfold clock_ok in Hc. simpl. unfold emit_event. rewrite He. simpl.
  destruct (py_int (PrimFloat.mul n 1000%float)) as [ms|]; [ | discriminate ].
  unfold EventQueue.put, EventQueue.full, EventQueue.size. rewrite Hm.
  destruct (1000 <=? len (EventQueue.queue (event_queue b))) eqn:Hfull; simpl.
  - apply Z.leb_le in Hfull. repeat split; try assumption; lia.
  - apply Z.leb_gt in Hfull. rewrite len_app, len_cons, len_nil.
    repeat split; try assumption; lia.
Qed.

Lemma plain_emits_fill (calls : list Call) :
  forall b : PythonEventBridge.t,
    enabled b = true ->
    forallb plain_emit calls = true ->
    EventQueue.maxsize (event_queue b) = 1000 ->
    EventQueue.size (event_queue b) <= 1000 ->
    EventQueue.size (event_queue (run calls b))
    = Z.min (EventQueue.size (event_queue b) + len calls) 1000
    /\ EventQueue.dropped_count (event_queue (run calls b))
       = EventQueue.dropped_count (event_queue b)
         + Z.max 0 (EventQueue.size (event_queue b) + len calls - 1000).
Proof.
  induction calls as [|c calls IH]; intros b He Hall Hm Hs.
  - simpl. rewrite len_nil. split; lia.
  - simpl in Hall. apply andb_true_iff in Hall. destruct Hall as [Hc Hall].
    destruct (plain_emit_counts c b He Hc Hm) as (He' & Hm' & Hroom & Hfull).
    rewrite run_cons, len_cons. pose proof (len_nonneg calls).
    assert (Hcase : EventQueue.size (event_queue b) < 1000
                    \/ 1000 <= EventQueue.size (event_queue b)) by lia.
    destruct Hcase as [Hlt | Hge].
    + destruct (Hroom Hlt) as [Hs1 Hd1].
      destruct (IH (step c b) He' Hall Hm' ltac:(lia)) as [Hs2 Hd2].
      rewrite Hs2, Hd2, Hs1, Hd1. split; lia.
    + destruct (Hfull Hge) as [Hs1 Hd1].
      destruct (IH (step c b) He' Hall Hm' ltac:(lia)) as [Hs2 Hd2].
      rewrite Hs2, Hd2, Hs1, Hd1. split; lia.
Qed.

(** X10: backpressure at the facade.  On an enabled bridge whose worker takes
    nothing in the meantime, N calls of [emit_event] leave [min(N, 1000)]
    events in the queue and [max(0, N - 1000)] counted as dropped in the
    snapshot of [get_stats]: the first 1000 are queued and every later one is
    shed. *)
Theorem emits_beyond_capacity_are_shed (rt : Runtime) (a : Args) (calls : list Call) :
  enabled (init rt a) = true ->
  forallb plain_emit calls = true ->
  queue_size (get_stats (run calls (init rt a))) = Z.min (len calls) 1000
  /\ dropped_events (get_stats (run calls (init rt a))) = Z.max 0 (len calls - 1000).
Proof.
  intros He Hall.
  destruct (init_queue_bounded rt a) as [Hm Hs].
  destruct (plain_emits_fill calls (init rt a) He Hall Hm Hs) as [H1 H2].
  assert (H0 : EventQueue.size (event_queue (init rt a)) = 0
               /\ EventQueue.dropped_count (event_queue (init rt a)) = 0).
  { unfold init.
    match goal with |- context [if ?c then _ else _] => destruct c end.
    - rewrite start_idle by reflexivity. split; reflexivity.
    - split; reflexivity. }
  destruct H0 as [Hs0 Hd0]. rewrite Hs0, Hd0 in *.
  simpl queue_size. simpl dropped_events. unfold EventQueue.get_dropped_count.
  rewrite H1, H2. split; reflexivity.
Qed.

Lemma emits_beyond_capacity_are_shed_witness :
  queue_size (get_stats (run [Demo.emit "e1"; Demo.emit "e2"; Demo.emit "e3"]
                             (init Demo.runtime (Demo.args 10))))
  = Z.min (len [Demo.emit "e1"; Demo.emit "e2"; Demo.emit "e3"]) 1000
  /\ dropped_events (get_stats (run [Demo.emit "e1"; Demo.emit "e2"; Demo.emit "e3"]
                                    (init Demo.runtime (Demo.args 10))))
     = Z.max 0 (len [Demo.emit "e1"; Demo.emit "e2"; Demo.emit "e3"] - 1000).
Proof.
  apply (emits_beyond_capacity_are_shed Demo.runtime (Demo.args 10)
           [Demo.emit "e1"; Demo.emit "e2"; Demo.emit "e3"]); reflexivity.
Defined.

Lemma header_get_same (k k' : string) (hs : Headers) :
  same_header k k' = true -> header_get k hs = header_get k' hs.
Proof.
  intros H. induction hs as [|[k0 v] hs IH]; simpl; [ reflexivity | ].
  destruct (same_header k k0) eqn:E, (same_header k' k0) eqn:E'; try reflexivity.
  - rewrite same_header_sym in H.
    rewrite (same_header_trans k' k k0 H E) in E'. discriminate.
  - rewrite (same_header_trans k k' k0 H E') in E. discriminate.
  - exact IH.
Qed.

(** X11: the session [_create_session] builds names the bridge in
    [User-Agent], in place of whatever the HTTP library had there, and keeps
    every other header the library starts with; the credential and the
    content type are found under their names in any letter case. *)
Theorem session_headers_override_defaults (defaults : Headers) (retries : Z)
        (key : string) :
  header_get "User-Agent" (headers (_create_session defaults retries key))
  = Some "PythonEventBridge/1.0"
  /\ (forall k,
         same_header k "Content-Type" = false ->
         same_header k "X-API-Key" = false ->
         same_header k "User-Agent" = false ->
         header_get k (headers (_create_session defaults retries key))
         = header_get k defaults)
  /\ (forall k,
         same_header k "X-API-Key" = true ->
         header_get k (headers (_create_session defaults retries key)) = Some key)
  /\ (forall k,
         same_header k "Content-Type" = true ->
         header_get k (headers (_create_session defaults retries key))
         = Some "application/json").
Proof.
  split; [ | split; [ | split ] ].
  - unfold _create_session, headers_update. simpl. apply header_get_set_same.
  - intros k H1 H2 H3. unfold _create_session, headers_update. simpl.
    rewrite !header_get_set_other by assumption. reflexivity.
  - intros k Hk. rewrite (header_get_same k "X-API-Key" _ Hk).
    apply create_session_headers.
  - intros k Hk. rewrite (header_get_same k "Content-Type" _ Hk).
    apply create_session_headers.
Qed.

Lemma session_headers_override_defaults_witness :
  header_get "Accept" (headers (_create_session (requests_default_headers Demo.runtime)
                                                3 "secret"))
  = header_get "Accept" (requests_default_headers Demo.runtime)
  /\ header_get "x-api-key" (headers (_create_session [] 3 "secret")) = Some "secret".
Proof.
  split.
  - apply (proj1 (proj2 (session_headers_override_defaults
                           (requests_default_headers Demo.runtime) 3 "secret")));
      reflexivity.
  - apply (proj1 (proj2 (proj2 (session_headers_override_defaults [] 3 "secret"))));
      reflexivity.
Defined.

Lemma json_opt_str_injective (o o' : option string) :
  json_opt_str o = json_opt_str o' -> o = o'.
Proof. destruct o, o'; simpl; intros H; congruence. Qed.

Lemma json_opt_obj_injective (o o' : option (list (string * json))) :
  json_opt_obj o = json_opt_obj o' -> o = o'.
Proof. destruct o, o'; simpl; intros H; congruence. Qed.

(** X13: the dictionary of an event loses nothing: two events with the same
    dictionary are the same event, field by field, a missing session, user or
    metadata being told apart from a present one. *)
Theorem asdict_is_lossless (e e' : CollaborationEvent) :
  asdict e = asdict e' -> e = e'.
Proof.
  destruct e as [i t c ts o s u m], e' as [i' t' c' ts' o' s' u' m'].
  unfold asdict. simpl. intros H. injection H as Hi Ht Hc Hts Ho Hs Hu Hm.
  apply json_opt_str_injective in Hs, Hu. apply json_opt_obj_injective in Hm.
  subst. reflexivity.
Qed.

Lemma asdict_is_lossless_witness :
  Demo.event "e1" = new_event "e1" 1000100 "stdout" "line" "op-1" None None None.
Proof.
  apply (asdict_is_lossless (Demo.event "e1")
           (new_event "e1" 1000100 "stdout" "line" "op-1" None None None)).
  reflexivity.
Defined.

(** * The process-wide bridge *)

Lemma process_run_cons (c : ProcessCall) (calls : list ProcessCall) (p : Process) :
  process_run (c :: calls) p = process_run calls (process_step c p).
Proof. reflexivity. Qed.

Lemma get_bridge_off (rt : Runtime) :
  collab_enabled (environ rt) = false -> get_bridge rt process_start = process_start.
Proof. intros H. unfold get_bridge. simpl. rewrite H. reflexivity. Qed.

(** X14: with [COLLAB_ENABLED] unset, or set to anything but true, 1 or yes
    (in any letter case), the process never builds a bridge: along every
    history of [get_bridge], [emit_collaboration_event] and [stop_bridge]
    the global instance stays [None], and [emit_collaboration_event] returns
    [False]. *)
Theorem collaboration_off_builds_nothing (calls : list ProcessCall) (rt : Runtime)
        (uuid4 : string) (now : float) (event_type content operation_id : string)
        (session_id user_id : option string) (metadata : option (list (string * json))) :
  collab_off calls ->
  collab_enabled (environ rt) = false ->
  process_run calls process_start = process_start
  /\ _bridge_instance (get_bridge rt (process_run calls process_start)) = None
  /\ emit_collaboration_event rt uuid4 now event_type content operation_id
                              session_id user_id metadata
                              (process_run calls process_start)
     = (Some false, process_start).
Proof.
  intros Hoff Hrt.
  assert (Hrun : process_run calls process_start = process_start).
  { induction Hoff as [|c calls Hc _ IH]; [ reflexivity | ].
    rewrite process_run_cons.
    assert (Hstep : process_step c process_start = process_start).
    { destruct c as [rt0|rt0 u n ty co op se us me|sd|tk]; simpl in *.
      - apply get_bridge_off, Hc.
      - unfold emit_collaboration_event. rewrite (get_bridge_off rt0 Hc). reflexivity.
      - reflexivity.
      - reflexivity. }
    rewrite Hstep. exact IH. }
  rewrite Hrun. split; [ reflexivity | ].
  unfold emit_collaboration_event. rewrite (get_bridge_off rt Hrt).
  split; reflexivity.
Qed.

Lemma collaboration_off_builds_nothing_witness :
  process_run [PGetBridge Demo.runtime;
               PEmit Demo.runtime "e1" 1000.1%float "stdout" "line" "op-1" None None None;
               PWorkerStep Demo.early; PStopBridge Demo.calm]
              process_start
  = process_start.
Proof.
  apply (collaboration_off_builds_nothing
           [PGetBridge Demo.runtime;
            PEmit Demo.runtime "e1" 1000.1%float "stdout" "line" "op-1" None None None;
            PWorkerStep Demo.early; PStopBridge Demo.calm]
           Demo.runtime "e2" 1000.1%float "stdout" "line" "op-1" None None None).
  - repeat constructor.
  - reflexivity.
Defined.

(** X16: what the first [get_bridge] builds when collaboration is switched
    on: a bridge with the default batching (10 events, 0.5 s, 3 retries) that
    is enabled, with one worker running, exactly when [COLLAB_API_KEY] holds a
    non-empty key; without a key the instance exists all the same, disabled
    and with no worker, and [emit_collaboration_event] returns [False]
    without queueing anything. *)
Theorem get_bridge_builds_from_environment (rt : Runtime)
        (uuid4 : string) (now : float) (event_type content operation_id : string)
        (session_id user_id : option string) (metadata : option (list (string * json))) :
  collab_enabled (environ rt) = true ->
  exists bridge,
    _bridge_instance (get_bridge rt process_start) = Some bridge
    /\ bridge = init rt default_args
    /\ enabled bridge = truthy (getenv (environ rt) "COLLAB_API_KEY" "")
    /\ worker_alive bridge = enabled bridge
    /\ live_threads bridge = (if enabled bridge then 1 else 0)%nat
    /\ batch_size bridge = 10 /\ batch_timeout bridge = 0.5%float
    /\ max_retries bridge = 3
    /\ (enabled bridge = false ->
        emit_collaboration_event rt uuid4 now event_type content operation_id
                                 session_id user_id metadata process_start
        = (Some false, get_bridge rt process_start)).
Proof.
  intros Hon. exists (init rt default_args).
  assert (Hget : get_bridge rt process_start
                 = mkProcess (Some (init rt default_args)) []).
  { unfold get_bridge. simpl. rewrite Hon. reflexivity. }
  rewrite Hget. simpl _bridge_instance.
  split; [ reflexivity | split; [ reflexivity | ] ].
  assert (Hshape :
    enabled (init rt default_args) = truthy (getenv (environ rt) "COLLAB_API_KEY" "")
    /\ worker_alive (init rt default_args) = enabled (init rt default_args)
    /\ live_threads (init rt default_args)
       = (if enabled (init rt default_args) then 1 else 0)%nat
    /\ batch_size (init rt default_args) = 10
    /\ batch_timeout (init rt default_args) = 0.5%float
    /\ max_retries (init rt default_args) = 3).
  { unfold init, default_args. simpl.
    destruct (truthy (getenv (environ rt) "COLLAB_API_KEY" "")) eqn:Hk.
    - rewrite start_idle by reflexivity. unfold worker_alive, live_threads. simpl.
      repeat split.
    - unfold worker_alive, live_threads. simpl. repeat split. }
  destruct Hshape as (H1 & H2 & H3 & H4 & H5 & H6).
  repeat split; try assumption.
  intros Hdis. unfold emit_collaboration_event. rewrite Hget. cbn [_bridge_instance].
  rewrite (emit_disabled uuid4 now event_type content operation_id session_id user_id
                         metadata (init rt default_args) Hdis).
  reflexivity.
Qed.

Lemma get_bridge_builds_from_environment_witness :
  exists bridge,
    _bridge_instance (get_bridge Scenes.runtime_on process_start) = Some bridge
    /\ enabled bridge = true /\ worker_alive bridge = true
    /\ live_threads bridge = 1%nat.
Proof.
  destruct (get_bridge_builds_from_environment Scenes.runtime_on
              "e1" 1000.1%float "stdout" "line" "op-1" None None None)
    as (bridge & H1 & H2 & H3 & H4 & H5 & _).
  - reflexivity.
  - exists bridge. subst bridge. repeat split; try assumption; reflexivity.
Defined.

(** * The size of the batches *)

Lemma flush_within (limit : Z) (x : Exchange) (b : PythonEventBridge.t) :
  0 < limit ->
  len (current_batch b) <= limit ->
  Forall (fun rq => len (request_events rq) <= limit) (wire b) ->
  batches_within limit (_flush_batch x b).
Proof.
  intros Hpos Hb Hw. unfold batches_within. rewrite flush_clears, len_nil.
  split; [ exact Hpos | ]. rewrite flush_wire.
  apply Forall_app. split; [ exact Hw | ].
  unfold as_request. destruct (current_batch b) as [|e l] eqn:Hcb; constructor;
    [ | constructor ].
  rewrite request_events_batch. unfold len in *. rewrite length_map. exact Hb.
Qed.

Lemma iteration_within (tk : Tick) (b : PythonEventBridge.t) :
  batches_within (Z.max 1 (batch_size b)) b ->
  batches_within (Z.max 1 (batch_size b)) (worker_iteration tk b).
Proof.
  intros [Hb Hw]. destruct (EventQueue.queue (event_queue b)) as [|e rest] eqn:Hq.
  - rewrite iteration_idle by assumption. split; assumption.
  - rewrite (iteration_take tk b e rest Hq).
    assert (Hlen : len (current_batch b ++ [e]) = len (current_batch b) + 1)
      by (rewrite len_app, len_cons, len_nil; lia).
    match goal with |- context [if ?c then _ else _] => destruct c eqn:Hdue end.
    + apply flush_within; simpl; [ lia | lia | exact Hw ].
    + unfold flush_due in Hdue. simpl in Hdue. apply orb_false_iff in Hdue.
      destruct Hdue as [Hsize _]. apply Z.leb_gt in Hsize.
      split; simpl; [ lia | exact Hw ].
Qed.

Lemma step_within (c : Call) (b : PythonEventBridge.t) :
  batches_within (Z.max 1 (batch_size b)) b ->
  batches_within (Z.max 1 (batch_size (step c b))) (step c b).
Proof.
  apply (preserved_step (fun b => batches_within (Z.max 1 (batch_size b)) b));
    clear c b.
  - intros flag b H. exact H.
  - intros b _ [Hb Hw]. unfold batches_within, flush_posts in *. simpl.
    split; [ exact Hb | ]. apply Forall_app. split; [ exact Hw | ].
    constructor; [ | constructor ].
    rewrite request_events_batch. unfold len in *. rewrite length_map. lia.
  - intros x b [Hb Hw]. rewrite flush_returns_fields. unfold batches_within. simpl.
    rewrite len_nil. split; [ lia | exact Hw ].
  - intros tk b H. destruct (iteration_frame tk b) as ((_ & _ & Hsize & _) & _).
    rewrite Hsize. apply iteration_within, H.
  - intros b [Hb Hw].
    destruct (thread_exit_frame b) as ((_ & _ & Hsize & _) & _ & Hcb & _ & _ & _ & Hwx & _).
    unfold batches_within. rewrite Hsize, Hcb, Hwx. split; assumption.
  - intros u n ty co op se us me b H. emit_cases u n ty co op se us me b; exact H.
  - intros b H. start_cases b; exact H.
  - intros b H. exact H.
Qed.

Lemma init_empty (rt : Runtime) (a : Args) :
  current_batch (init rt a) = [] /\ wire (init rt a) = [].
Proof.
  unfold init.
  match goal with |- context [if ?c then _ else _] => destruct c end.
  - rewrite start_idle by reflexivity. split; reflexivity.
  - split; reflexivity.
Qed.

(** X17: no request is larger than a batch.  Along every history of a bridge
    built with batch size B >= 1, every request on the wire carries at least
    one and at most B events, and the batch between two steps holds fewer
    than B; with B <= 0 every request carries exactly one event. *)
Theorem requests_never_exceed_batch_size (rt : Runtime) (a : Args) (calls : list Call) :
  Forall (fun rq => 1 <= len (request_events rq) <= Z.max 1 (arg_batch_size a))
         (wire (run calls (init rt a)))
  /\ len (current_batch (run calls (init rt a))) < Z.max 1 (arg_batch_size a).
Proof.
  assert (Hsize : batch_size (run calls (init rt a)) = arg_batch_size a).
  { destruct (run_config calls (init rt a)) as (_ & _ & Hbs & _).
    rewrite Hbs. unfold init.
    match goal with |- context [if ?c then _ else _] => destruct c end.
    - rewrite start_idle by reflexivity. reflexivity.
    - reflexivity. }
  assert (H : batches_within (Z.max 1 (batch_size (run calls (init rt a))))
                             (run calls (init rt a))).
  { apply (run_invariant (fun b => batches_within (Z.max 1 (batch_size b)) b)).
    - apply step_within.
    - destruct (init_empty rt a) as [Hb0 Hw0]. unfold batches_within.
      rewrite Hb0, Hw0, len_nil. split; [ lia | constructor ]. }
  rewrite Hsize in H. destruct H as [Hb Hw].
  split; [ | exact Hb ].
  assert (Hne : batches_nonempty (run calls (init rt a))).
  { apply (run_invariant batches_nonempty);
      [ apply step_batches_nonempty | apply init_batches_nonempty ]. }
  unfold batches_nonempty in Hne.
  rewrite Forall_forall in *. intros rq Hin.
  specialize (Hw rq Hin). specialize (Hne rq Hin).
  split; [ | exact Hw ].
  destruct (request_events rq) as [|j l]; [ congruence | ].
  rewrite len_cons. pose proof (len_nonneg l). lia.
Qed.

(** X18: an iteration that takes an event sends the batch exactly when a
    trigger is due.  The oldest queued event joins the batch; if the batch
    has then reached the batch size, or the clock reads at least
    [batch_timeout] past the last flush, the whole batch goes out as one
    request, however small, and the time of the last flush is renewed;
    otherwise nothing is sent and the event waits in the batch. *)
Theorem iteration_sends_exactly_when_due (tk : Tick) (b : PythonEventBridge.t)
        (event : CollaborationEvent) (rest : list CollaborationEvent) :
  EventQueue.queue (event_queue b) = event :: rest ->
  EventQueue.queue (event_queue (worker_iteration tk b)) = rest
  /\ if (batch_size b <=? len (current_batch b) + 1)
        || PrimFloat.leb (batch_timeout b) (PrimFloat.sub (now tk) (last_batch_time b))
     then wire (worker_iteration tk b)
          = wire b ++ [batch_request b (current_batch b ++ [event])]
          /\ current_batch (worker_iteration tk b) = []
          /\ last_batch_time (worker_iteration tk b) = finished_at (exchange tk)
     else wire (worker_iteration tk b) = wire b
          /\ current_batch (worker_iteration tk b) = current_batch b ++ [event]
          /\ last_batch_time (worker_iteration tk b) = last_batch_time b.
Proof.
  intros Hq. split.
  - destruct (iteration_frame tk b) as (_ & Hqueue & _).
    rewrite Hqueue, get_tail, Hq. reflexivity.
  - rewrite (iteration_take tk b event rest Hq). unfold flush_due. simpl.
    assert (Hlen : len (current_batch b ++ [event]) = len (current_batch b) + 1)
      by (rewrite len_app, len_cons, len_nil; lia).
    rewrite Hlen.
    match goal with |- context [if ?c then _ else _] => destruct c end.
    + rewrite flush_nonempty by (simpl; destruct (current_batch b); discriminate).
      simpl. repeat split.
    + simpl. repeat split.
Qed.

Lemma iteration_sends_exactly_when_due_witness :
  EventQueue.queue (event_queue (worker_iteration Demo.late Demo.one_batched_two_queued))
  = [Demo.event "e3"]
  /\ wire (worker_iteration Demo.late Demo.one_batched_two_queued)
     = wire Demo.one_batched_two_queued
       ++ [batch_request Demo.one_batched_two_queued
                         (current_batch Demo.one_batched_two_queued ++ [Demo.event "e2"])]
  /\ current_batch (worker_iteration Demo.late Demo.one_batched_two_queued) = []
  /\ last_batch_time (worker_iteration Demo.late Demo.one_batched_two_queued)
     = finished_at (exchange Demo.late).
Proof.
  apply (iteration_sends_exactly_when_due Demo.late Demo.one_batched_two_queued
           (Demo.event "e2") [Demo.event "e3"]).
  reflexivity.
Defined.
